(** * Content Workflow MCP Server

    A shallow embedding of the four service connectors of the server
    (GitHub, Notion, Google Calendar, web search) and of the workflow
    orchestration contract, together with the properties the design
    document states about them.

    Conventions of the embedding:
    - a JavaScript value received over the protocol is a [jsval];
    - an [async] method is a computation in the monad [M]: it threads the
      connector state (the log of vendor calls issued so far and the
      OAuth credentials cached in memory) and either returns or throws;
    - what a vendor answers is not under the program's control: every
      vendor endpoint is a field of the record [World], a function of the
      log of calls issued so far;
    - [console.error] logging has no influence on results and is left out. *)

From Stdlib Require Import ZArith String Ascii List Bool Lia.
From stdpp Require Import base option list gmap strings pretty.

Open Scope string_scope.
Open Scope list_scope.

(** ** Strings as the code uses them *)

Definition nl : string := String "010"%char EmptyString.
Definition dq : string := String "034"%char EmptyString.
Definition nl2 : string := nl +:+ nl.

(** [arr.join(sep)] *)
Definition join (sep : string) (l : list string) : string := String.concat sep l.

(** [s.split(c)] for a separator of one character. *)
Fixpoint split_char (c : ascii) (s : string) : list string :=
  match s with
  | EmptyString => [EmptyString]
  | String a s' =>
      if Ascii.eqb a c then EmptyString :: split_char c s'
      else match split_char c s' with
           | [] => [String a EmptyString]
           | w :: ws => String a w :: ws
           end
  end.

(** [s.split('\n')] *)
Definition lines (s : string) : list string := split_char "010"%char s.

(** [hay.includes(needle)] *)
Fixpoint includes (needle hay : string) : bool :=
  String.prefix needle hay ||
  match hay with
  | EmptyString => false
  | String _ hay' => includes needle hay'
  end.

(** [s.split(sep)[0]] for a non-empty separator: the text before the first
    occurrence of [sep], the whole of [s] when there is none. *)
Fixpoint before_first (sep s : string) : string :=
  if String.prefix sep s then EmptyString
  else match s with
       | EmptyString => EmptyString
       | String a s' => String a (before_first sep s')
       end.

(** [s.replace(/-/g, '')] *)
Fixpoint strip_dashes (s : string) : string :=
  match s with
  | EmptyString => EmptyString
  | String a s' =>
      if Ascii.eqb a "-"%char then strip_dashes s' else String a (strip_dashes s')
  end.

(** [s || d] on strings: the empty string is falsy. *)
Definition str_or (s d : string) : string :=
  match s with EmptyString => d | _ => s end.

(** [o || d] where [o] may be undefined. *)
Definition opt_or (o : option string) (d : string) : string :=
  match o with Some s => str_or s d | None => d end.

(** A number inside a template string. *)
Definition num (z : Z) : string := pretty z.

(** ** JavaScript values of an argument bag

    The numbers the tools receive are counts and limits; they are taken
    to be integers. *)

#[warnings="-register-all"] Inductive jsval :=
  | JUndefined
  | JNull
  | JBool (b : bool)
  | JNum (n : Z)
  | JStr (s : string)
  | JArr (items : list jsval)
  | JObj (fields : list (string * jsval)).

(** [o[k]], [undefined] when the object has no such property. *)
Fixpoint obj_get (k : string) (fields : list (string * jsval)) : jsval :=
  match fields with
  | [] => JUndefined
  | (k', v) :: rest => if String.eqb k k' then v else obj_get k rest
  end.

(** Truthiness, as tested by [if (x)], [!x] and [x || y]. *)
Definition truthy (v : jsval) : bool :=
  match v with
  | JUndefined | JNull => false
  | JBool b => b
  | JNum n => negb (n =? 0)%Z
  | JStr s => negb (String.eqb s EmptyString)
  | JArr _ | JObj _ => true
  end.

(** The string held by a value that the schema has checked to be a string. *)
Definition str_of (v : jsval) : string :=
  match v with JStr s => s | _ => EmptyString end.

Definition num_of (v : jsval) : Z :=
  match v with JNum n => n | _ => 0%Z end.

(** The strings of a checked array of strings; [= []] is the destructuring
    default for a property that is undefined. *)
Definition strs_of (v : jsval) : list string :=
  match v with JArr l => map str_of l | _ => [] end.

(** ** Runtime schema validation (zod)

    Every public operation declares the shape of its argument bag as a
    [z.object({...})] and calls [schema.parse(args)] first. *)

Inductive ztype :=
  | ZString                         (* z.string() *)
  | ZUrl                            (* z.string().url() *)
  | ZNumber                         (* z.number() *)
  | ZEnum (values : list string)    (* z.enum([...]) *)
  | ZStringArray.                   (* z.array(z.string()) *)

Inductive zmod :=
  | ZRequired
  | ZOptional                       (* .optional() *)
  | ZDefault (d : jsval).           (* .default(d) *)

Record zfield := Field { fname : string; ftype : ztype; fmod : zmod }.

Definition zschema := list zfield.

Inductive zcode := invalid_type | invalid_enum_value | invalid_string.

Record zissue := Issue { ipath : string; icode : zcode }.

(** What the program throws or catches. A [ZodError] is an instance of
    [Error]; [NonError] stands for a thrown value that is not. *)
Inductive thrown :=
  | ZodError (issues : list zissue)
  | JsError (message : string)
  | NonError.

Definition is_str (v : jsval) : bool :=
  match v with JStr _ => true | _ => false end.

Definition str_in (s : string) (l : list string) : bool :=
  existsb (String.eqb s) l.

(** Pure functions of the JavaScript runtime that the code calls. *)
Record Runtime := {
  is_url : string -> bool;              (* does [new URL(s)] succeed *)
  encodeURIComponent : string -> string;
  toLocaleString : string -> string;    (* new Date(s).toLocaleString() *)
  toLocaleDateString : string -> string;(* new Date(s).toLocaleDateString() *)
  ms_toISOString : Z -> string;         (* new Date(ms).toISOString() *)
  ms_toLocaleString : Z -> string;      (* new Date(ms).toLocaleString() *)
  zod_message : list zissue -> string;  (* the message of a ZodError *)
}.

(** ** Vendor calls and what vendors answer

    One constructor per vendor endpoint the connectors call, with the
    request fields the code fills in. *)

Inductive call :=
  (* octokit.rest *)
  | GhIssuesCreate (owner repo title body : string) (labels : list string)
  | GhGitGetRef (owner repo ref : string)
  | GhGitCreateRef (owner repo ref sha : string)
  | GhPullsCreate (owner repo title body head base : string)
  | GhIssuesListForRepo (owner repo state : string) (labels : option string) (per_page : Z)
  | GhReposGet (owner repo : string)
  (* @notionhq/client *)
  | NtPagesCreate (database_id title : string) (tags : list string)
      (created : string) (paragraph : string)
  | NtSearch (query : string)
  | NtPagesUpdate (page_id : string) (title status : option string)
  | NtBlocksChildrenAppend (block_id : string) (paragraphs : list string)
  | NtPagesRetrieve (page_id : string)
  | NtBlocksChildrenList (block_id : string)
  | NtDatabasesQuery (database_id : string) (status : option string) (page_size : Z)
  (* googleapis *)
  | GcRefreshAccessToken
  | GcEventsInsert (summary description start_ end_ : string) (attendees : list string)
  | GcEventsList (timeMin timeMax : string) (maxResults : Z)
  | GcEventsUpdate (eventId : string) (summary description start_ end_ : option string)
  | GcEventsDelete (eventId : string)
  (* axios *)
  | HttpGetDuckDuckGo (q : string)
  | HttpGetPage (url : string).

(** [response.data] of [issues.create] and of [pulls.create]. *)
Record gh_item := {
  gh_number : Z; gh_title : string; gh_html_url : string; gh_state : string }.

(** A label of a listed issue: a string, or an object with an optional name. *)
Inductive gh_label := LabelStr (s : string) | LabelObj (name : option string).

Record gh_listed := {
  li_number : Z; li_title : string; li_state : string; li_html_url : string;
  li_labels : list gh_label; li_created_at : string }.

Record gh_repo_data := {
  rp_full_name : string; rp_description : option string;
  rp_stargazers_count : Z; rp_forks_count : Z;
  rp_language : option string; rp_html_url : string }.

(** A Notion page object, with the properties the code reads through
    optional chaining ([None]: some link of the chain is undefined). *)
Record nt_page := {
  pg_id : string;
  pg_parent_database_id : option string;
  pg_title : option string;
  pg_status : option string;
  pg_tags : option (list string);
  pg_url : string;
  pg_last_edited_time : string;
  pg_created_date : option string }.

(** A block of a page: a paragraph with the contents of its rich text
    items, or a block of another type. *)
Inductive nt_block := Paragraph (rich_text : list string) | OtherBlock (type : string).

(** The OAuth credentials, as [oauth2Client.credentials] holds them. *)
Record tokens := {
  access_token : option string;
  refresh_token : option string;
  expiry_date : option Z }.

Record gc_event := {
  ev_summary : string; ev_start : string; ev_end : string;
  ev_description : option string; ev_attendees : option (list string);
  ev_htmlLink : string }.

(** An item of [events.list]: [start] and [end] carry a [dateTime] or a [date]. *)
Record gc_listed := {
  le_id : string; le_summary : string; le_description : option string;
  le_start_dateTime : option string; le_start_date : string;
  le_end_dateTime : option string; le_end_date : string;
  le_attendees : option (list string); le_htmlLink : string }.

(** [response.data] of the DuckDuckGo instant answer API. *)
Record ddg_topic := { tp_Text : option string; tp_FirstURL : option string }.

Record ddg_data := {
  dd_AbstractText : option string; dd_Heading : option string;
  dd_AbstractURL : option string; dd_RelatedTopics : option (list ddg_topic) }.

(** What cheerio selects from a fetched page. *)
Record html_doc := {
  doc_title : string;                 (* $('title').text() *)
  doc_h1 : string;                    (* $('h1').first().text() *)
  doc_texts : list string;            (* trimmed text of p, h1..h6, li under body *)
  doc_description : option string }.  (* meta[name=description] content *)

(** The outside world: each endpoint answers as a function of the log of
    calls issued so far (the call being answered is its last entry), with
    a response or with the value it throws. *)
Record World := {
  gh_issues_create : list call -> thrown + gh_item;
  gh_git_getRef : list call -> thrown + string;           (* ref.object.sha *)
  gh_git_createRef : list call -> thrown + unit;
  gh_pulls_create : list call -> thrown + gh_item;
  gh_issues_listForRepo : list call -> thrown + list gh_listed;
  gh_repos_get : list call -> thrown + gh_repo_data;
  nt_pages_create : list call -> thrown + string;         (* response.id *)
  nt_search : list call -> thrown + list nt_page;
  nt_pages_update : list call -> thrown + unit;
  nt_blocks_children_append : list call -> thrown + unit;
  nt_pages_retrieve : list call -> thrown + nt_page;
  nt_blocks_children_list : list call -> thrown + list nt_block;
  nt_databases_query : list call -> thrown + list nt_page;
  gc_refreshAccessToken : list call -> thrown + tokens;      (* { credentials } *)
  gc_events_insert : list call -> thrown + gc_event;
  gc_events_list : list call -> thrown + option (list gc_listed);
  gc_events_update : list call -> thrown + gc_event;
  gc_events_delete : list call -> thrown + unit;
  http_get_duckduckgo : list call -> thrown + ddg_data;
  http_get_page : list call -> thrown + html_doc;
  date_now : list call -> Z;                              (* Date.now() *)
  random_below : Z -> nat -> Z;       (* Math.floor(Math.random() * n), k-th draw *)
}.

(** ** Computations

    The state threaded through a connector method: the log of vendor
    calls, each with the value it threw if it failed, and the credentials
    cached by the OAuth client. *)
Record entry := Entry { ecall : call; efault : option thrown }.

Record state := State { log : list entry; credentials : option tokens }.

(** The calls issued so far, oldest first. *)
Definition trace (s : state) : list call := map ecall (log s).

(** The values thrown by vendor calls so far. *)
Definition faults (s : state) : list thrown := omap efault (log s).

Inductive completion (A : Type) :=
  | Return (a : A)
  | Throw (e : thrown).
Arguments Return {A} a.
Arguments Throw {A} e.

Definition M (A : Type) : Type := state -> completion A * state.

Definition ret {A} (a : A) : M A := fun s => (Return a, s).

Definition throw {A} (e : thrown) : M A := fun s => (Throw e, s).

Definition bind {A B} (m : M A) (k : A -> M B) : M B :=
  fun s =>
    match m s with
    | (Return a, s') => k a s'
    | (Throw e, s') => (Throw e, s')
    end.

(** [try { m } catch (error) { h error }] *)
Definition try_catch {A} (m : M A) (h : thrown -> M A) : M A :=
  fun s =>
    match m s with
    | (Return a, s') => (Return a, s')
    | (Throw e, s') => h e s'
    end.

Notation "'let!' x ':=' m 'in' k" := (bind m (fun x => k))
  (at level 10, x pattern, m at level 100, k at level 200).

(** [await vendor.endpoint(request)]: the call is logged, then answered. *)
Definition invoke {A} (c : call) (answer : list call -> thrown + A) : M A :=
  fun s =>
    match answer (trace s ++ [c]) with
    | inl e => (Throw e, State (log s ++ [Entry c (Some e)]) (credentials s))
    | inr a => (Return a, State (log s ++ [Entry c None]) (credentials s))
    end.

Definition get_credentials : M (option tokens) :=
  fun s => (Return (credentials s), s).

(** [oauth2Client.setCredentials(t)] *)
Definition set_credentials (t : option tokens) : M unit :=
  fun s => (Return tt, State (log s) t).

Definition get_trace : M (list call) :=
  fun s => (Return (trace s), s).

(** [for (const x of l) { ys.push(await f(x)) }] *)
Fixpoint for_each {A B} (f : A -> M B) (l : list A) : M (list B) :=
  match l with
  | [] => ret []
  | x :: rest =>
      let! y := f x in
      let! ys := for_each f rest in
      ret (y :: ys)
  end.

(** [l.slice(0, e)] for an integer [e]: a negative end counts from the
    end of the array. *)
Definition slice0 {A} (e : Z) (l : list A) : list A :=
  if (e <? 0)%Z
  then firstn (Z.to_nat (Z.of_nat (length l) + e)) l
  else firstn (Z.to_nat e) l.

(** The uniform result of a tool: [{ content: [{ type: 'text', text }] }]. *)
Record ToolResult := Content { text : string }.

Section Validation.
Context (rt : Runtime).

(** The check of one value against a type: [None] when it passes. *)
Definition zcheck (t : ztype) (v : jsval) : option zcode :=
  match t, v with
  | ZString, JStr _ => None
  | ZUrl, JStr s => if is_url rt s then None else Some invalid_string
  | ZNumber, JNum _ => None
  | ZEnum vs, JStr s => if str_in s vs then None else Some invalid_enum_value
  | ZStringArray, JArr l => if forallb is_str l then None else Some invalid_type
  | _, _ => Some invalid_type
  end.

(** One property of the object: an undefined property passes when the
    field is optional and takes the default when it has one. *)
Definition zparse_field (f : zfield) (o : list (string * jsval)) : zissue + jsval :=
  match fmod f, obj_get (fname f) o with
  | ZOptional, JUndefined => inr JUndefined
  | ZDefault d, JUndefined => inr d
  | _, v =>
      match zcheck (ftype f) v with
      | None => inr v
      | Some c => inl (Issue (fname f) c)
      end
  end.

(** All properties are checked and all issues collected; properties the
    schema does not name are dropped from the output. *)
Fixpoint zparse_fields (sch : zschema) (o : list (string * jsval))
  : list zissue * list (string * jsval) :=
  match sch with
  | [] => ([], [])
  | f :: rest =>
      let '(issues, out) := zparse_fields rest o in
      match zparse_field f o with
      | inl i => (i :: issues, out)
      | inr v => (issues, (fname f, v) :: out)
      end
  end.

(** [schema.parse(args)]: the parsed object, or the issues of the
    [ZodError] it throws. *)
Definition zparse (sch : zschema) (args : jsval)
  : list zissue + list (string * jsval) :=
  match args with
  | JObj o =>
      match zparse_fields sch o with
      | ([], out) => inr out
      | (issues, _) => inl issues
      end
  | _ => inl [Issue EmptyString invalid_type]
  end.

(** [args: any = {}]: the default of a parameter that is undefined. *)
Definition default_empty (args : jsval) : jsval :=
  match args with JUndefined => JObj [] | _ => args end.

(** [error instanceof Error ? error.message : 'Unknown error'] *)
Definition error_message (e : thrown) : string :=
  match e with
  | JsError m => m
  | ZodError issues => zod_message rt issues
  | NonError => "Unknown error"
  end.

(** [const {...} = schema.parse(args)] at the head of a method, outside
    its [try]: a mismatch throws the [ZodError] before anything else runs. *)
Definition parse_args (sch : zschema) (args : jsval) : M (list (string * jsval)) :=
  match zparse sch args with
  | inl issues => throw (ZodError issues)
  | inr out => ret out
  end.

End Validation.

(** [process.env.NAME] is usable when it is set and not empty: [!value]
    holds for [undefined] and for the empty string. *)
Definition env_missing (v : option string) : bool :=
  match v with
  | None => true
  | Some s => String.eqb s EmptyString
  end.

(** ** GitHubService (services/github.ts) *)

Module GitHubService.

Record t := { token : string; owner : string; repo : string }.

Definition config_missing : string :=
  "GitHub configuration missing. Please set GITHUB_TOKEN, GITHUB_OWNER, and GITHUB_REPO environment variables.".

(** [new GitHubService()] under the environment [env]. *)
Definition constructor (env : gmap string string) : thrown + t :=
  let token := env !! "GITHUB_TOKEN" in
  let owner := env !! "GITHUB_OWNER" in
  let repo := env !! "GITHUB_REPO" in
  if env_missing token || env_missing owner || env_missing repo
  then inl (JsError config_missing)
  else inr {| token := default EmptyString token;
              owner := default EmptyString owner;
              repo := default EmptyString repo |}.

Definition createIssue_schema : zschema :=
  [ Field "title" ZString ZRequired;
    Field "body" ZString ZRequired;
    Field "labels" ZStringArray ZOptional ].

Definition createBranch_schema : zschema :=
  [ Field "branchName" ZString ZRequired;
    Field "baseBranch" ZString (ZDefault (JStr "main")) ].

Definition createPullRequest_schema : zschema :=
  [ Field "title" ZString ZRequired;
    Field "body" ZString ZRequired;
    Field "head" ZString ZRequired;
    Field "base" ZString (ZDefault (JStr "main")) ].

Definition listIssues_schema : zschema :=
  [ Field "state" (ZEnum ["open"; "closed"; "all"]) (ZDefault (JStr "open"));
    Field "labels" ZString ZOptional;
    Field "limit" ZNumber (ZDefault (JNum 10)) ].

(** [typeof label === 'string' ? label : label.name || ''] *)
Definition label_name (l : gh_label) : string :=
  match l with
  | LabelStr s => s
  | LabelObj name => opt_or name EmptyString
  end.

Section Methods.
Context (rt : Runtime) (w : World) (this : t).

Definition createIssue (args : jsval) : M ToolResult :=
  let! a := parse_args rt createIssue_schema args in
  let title := str_of (obj_get "title" a) in
  let body := str_of (obj_get "body" a) in
  let labels := strs_of (obj_get "labels" a) in
  try_catch
    (let! data :=
       invoke (GhIssuesCreate (owner this) (repo this) title body ("content" :: labels))
              (gh_issues_create w) in
     ret (Content
       ("✅ GitHub issue created successfully!" +:+ nl2 +:+
        "**Issue #" +:+ num (gh_number data) +:+ "**: " +:+ gh_title data +:+ nl2 +:+
        "URL: " +:+ gh_html_url data +:+ nl2 +:+
        "Status: " +:+ gh_state data)))
    (fun error =>
       throw (JsError ("Failed to create GitHub issue: " +:+ error_message rt error))).

Definition createBranch (args : jsval) : M ToolResult :=
  let! a := parse_args rt createBranch_schema args in
  let branchName := str_of (obj_get "branchName" a) in
  let baseBranch := str_of (obj_get "baseBranch" a) in
  try_catch
    (let! sha :=
       invoke (GhGitGetRef (owner this) (repo this) ("heads/" +:+ baseBranch))
              (gh_git_getRef w) in
     let! _ :=
       invoke (GhGitCreateRef (owner this) (repo this) ("refs/heads/" +:+ branchName) sha)
              (gh_git_createRef w) in
     ret (Content
       ("✅ Branch '" +:+ branchName +:+ "' created successfully from '" +:+
        baseBranch +:+ "'!" +:+ nl2 +:+
        "Branch URL: https://github.com/" +:+ owner this +:+ "/" +:+ repo this +:+
        "/tree/" +:+ branchName)))
    (fun error =>
       throw (JsError ("Failed to create GitHub branch: " +:+ error_message rt error))).

Definition createPullRequest (args : jsval) : M ToolResult :=
  let! a := parse_args rt createPullRequest_schema args in
  let title := str_of (obj_get "title" a) in
  let body := str_of (obj_get "body" a) in
  let head := str_of (obj_get "head" a) in
  let base := str_of (obj_get "base" a) in
  try_catch
    (let! data :=
       invoke (GhPullsCreate (owner this) (repo this) title body head base)
              (gh_pulls_create w) in
     ret (Content
       ("✅ Pull request created successfully!" +:+ nl2 +:+
        "**PR #" +:+ num (gh_number data) +:+ "**: " +:+ gh_title data +:+ nl2 +:+
        "URL: " +:+ gh_html_url data +:+ nl2 +:+
        "Status: " +:+ gh_state data +:+ nl2 +:+
        "From: " +:+ head +:+ " → To: " +:+ base)))
    (fun error =>
       throw (JsError ("Failed to create GitHub pull request: " +:+ error_message rt error))).

Definition render_issue (issue : gh_listed) : string :=
  "• #" +:+ num (li_number issue) +:+ ": " +:+ li_title issue +:+
  " (" +:+ li_state issue +:+ ")" +:+ nl +:+
  "  Labels: " +:+ str_or (join ", " (map label_name (li_labels issue))) "none" +:+ nl +:+
  "  URL: " +:+ li_html_url issue.

(** [args: any = {}] *)
Definition listIssues (args : jsval) : M ToolResult :=
  let! a := parse_args rt listIssues_schema (default_empty args) in
  let state := str_of (obj_get "state" a) in
  let labels := obj_get "labels" a in
  let limit := num_of (obj_get "limit" a) in
  try_catch
    (let! issues :=
       invoke (GhIssuesListForRepo (owner this) (repo this) state
                 (if truthy labels then Some (str_of labels) else None) limit)
              (gh_issues_listForRepo w) in
     ret (Content
       ("📋 Found " +:+ num (Z.of_nat (length issues)) +:+ " issues:" +:+ nl2 +:+
        join nl2 (map render_issue issues))))
    (fun error =>
       throw (JsError ("Failed to list GitHub issues: " +:+ error_message rt error))).

Definition getRepositoryInfo : M ToolResult :=
  try_catch
    (let! data := invoke (GhReposGet (owner this) (repo this)) (gh_repos_get w) in
     ret (Content
       ("📁 Repository: " +:+ rp_full_name data +:+ nl2 +:+
        "Description: " +:+ opt_or (rp_description data) "No description" +:+ nl2 +:+
        "Stars: ⭐ " +:+ num (rp_stargazers_count data) +:+ nl +:+
        "Forks: 🔀 " +:+ num (rp_forks_count data) +:+ nl +:+
        "Language: " +:+ opt_or (rp_language data) "Not specified" +:+ nl2 +:+
        "URL: " +:+ rp_html_url data)))
    (fun error =>
       throw (JsError ("Failed to get repository info: " +:+ error_message rt error))).

End Methods.
End GitHubService.

(** ** NotionService (services/notion.ts) *)

Module NotionService.

Record t := { token : string; databaseId : string }.

Definition config_missing : string :=
  "Notion configuration missing. Please set NOTION_TOKEN and NOTION_DATABASE_ID environment variables.".

Definition constructor (env : gmap string string) : thrown + t :=
  let token := env !! "NOTION_TOKEN" in
  let databaseId := env !! "NOTION_DATABASE_ID" in
  if env_missing token || env_missing databaseId
  then inl (JsError config_missing)
  else inr {| token := default EmptyString token;
              databaseId := default EmptyString databaseId |}.

Definition createPage_schema : zschema :=
  [ Field "title" ZString ZRequired;
    Field "content" ZString ZRequired;
    Field "tags" ZStringArray ZOptional ].

Definition searchPages_schema : zschema :=
  [ Field "query" ZString ZRequired;
    Field "filter" ZString ZOptional ].

Definition updatePage_schema : zschema :=
  [ Field "pageId" ZString ZRequired;
    Field "title" ZString ZOptional;
    Field "content" ZString ZOptional;
    Field "status" (ZEnum ["Draft"; "Review"; "Published"]) ZOptional ].

Definition getPage_schema : zschema :=
  [ Field "pageId" ZString ZRequired ].

Definition listDatabasePages_schema : zschema :=
  [ Field "status" ZString ZOptional;
    Field "limit" ZNumber (ZDefault (JNum 10)) ].

(** [tags.join(', ') || 'None'] *)
Definition render_tags (tags : list string) : string :=
  str_or (join ", " tags) "None".

(** [x ? Some x : undefined] for a parsed optional string. *)
Definition if_truthy (v : jsval) : option string :=
  if truthy v then Some (str_of v) else None.

(** The text of a block as [getPage] shows it. *)
Definition block_text (b : nt_block) : string :=
  match b with
  | Paragraph rich_text => join EmptyString rich_text
  | OtherBlock _ => EmptyString
  end.

Section Methods.
Context (rt : Runtime) (w : World) (this : t).

Definition createPage (args : jsval) : M ToolResult :=
  let! a := parse_args rt createPage_schema args in
  let title := str_of (obj_get "title" a) in
  let content := str_of (obj_get "content" a) in
  let tags := strs_of (obj_get "tags" a) in
  try_catch
    (let! seen := get_trace in
     let! id :=
       invoke (NtPagesCreate (databaseId this) title tags
                 (ms_toISOString rt (date_now w seen)) content)
              (nt_pages_create w) in
     ret (Content
       ("✅ Notion page created successfully!" +:+ nl2 +:+
        "**Title**: " +:+ title +:+ nl2 +:+
        "**Page ID**: " +:+ id +:+ nl2 +:+
        "**URL**: https://notion.so/" +:+ strip_dashes id +:+ nl2 +:+
        "**Status**: Draft" +:+ nl2 +:+
        "**Tags**: " +:+ render_tags tags)))
    (fun error =>
       throw (JsError ("Failed to create Notion page: " +:+ error_message rt error))).

Definition in_database (page : nt_page) : bool :=
  match pg_parent_database_id page with
  | Some d => String.eqb d (databaseId this)
  | None => false
  end.

Definition render_found (page : nt_page) : string :=
  "• **" +:+ opt_or (pg_title page) "Untitled" +:+ "**" +:+ nl +:+
  "  Status: " +:+ opt_or (pg_status page) "Unknown" +:+ nl +:+
  "  Tags: " +:+ render_tags (default [] (pg_tags page)) +:+ nl +:+
  "  URL: " +:+ pg_url page +:+ nl +:+
  "  Last edited: " +:+ toLocaleDateString rt (pg_last_edited_time page).

Definition searchPages (args : jsval) : M ToolResult :=
  let! a := parse_args rt searchPages_schema args in
  let query := str_of (obj_get "query" a) in
  try_catch
    (let! results := invoke (NtSearch query) (nt_search w) in
     let pages := filter (fun page => in_database page = true) results in
     ret (Content
       ("🔍 Found " +:+ num (Z.of_nat (length pages)) +:+ " pages matching " +:+
        dq +:+ query +:+ dq +:+ ":" +:+ nl2 +:+
        join nl2 (map render_found pages))))
    (fun error =>
       throw (JsError ("Failed to search Notion pages: " +:+ error_message rt error))).

Definition updatePage (args : jsval) : M ToolResult :=
  let! a := parse_args rt updatePage_schema args in
  let pageId := str_of (obj_get "pageId" a) in
  let title := obj_get "title" a in
  let content := obj_get "content" a in
  let status := obj_get "status" a in
  try_catch
    (let! _ :=
       invoke (NtPagesUpdate pageId (if_truthy title) (if_truthy status))
              (nt_pages_update w) in
     (* If content is provided, add it as a new block *)
     let! _ :=
       if truthy content
       then invoke (NtBlocksChildrenAppend pageId [str_of content])
                   (nt_blocks_children_append w)
       else ret tt in
     ret (Content
       ("✅ Notion page updated successfully!" +:+ nl2 +:+
        "**Page ID**: " +:+ pageId +:+ nl2 +:+
        "**URL**: https://notion.so/" +:+ strip_dashes pageId +:+ nl2 +:+
        (if truthy title then "**New Title**: " +:+ str_of title +:+ nl2 else EmptyString) +:+
        (if truthy status then "**New Status**: " +:+ str_of status +:+ nl2 else EmptyString) +:+
        (if truthy content then "**Content added**" +:+ nl2 else EmptyString))))
    (fun error =>
       throw (JsError ("Failed to update Notion page: " +:+ error_message rt error))).

Definition getPage (args : jsval) : M ToolResult :=
  let! a := parse_args rt getPage_schema args in
  let pageId := str_of (obj_get "pageId" a) in
  try_catch
    (let! response := invoke (NtPagesRetrieve pageId) (nt_pages_retrieve w) in
     let! blocks := invoke (NtBlocksChildrenList pageId) (nt_blocks_children_list w) in
     let content := join nl (map block_text blocks) in
     ret (Content
       ("📄 **Page Details**" +:+ nl2 +:+
        "**Title**: " +:+ opt_or (pg_title response) "Untitled" +:+ nl2 +:+
        "**Status**: " +:+ opt_or (pg_status response) "Unknown" +:+ nl2 +:+
        "**Tags**: " +:+
          match pg_tags response with
          | Some tags => render_tags tags
          | None => "None"
          end +:+ nl2 +:+
        "**URL**: " +:+ pg_url response +:+ nl2 +:+
        "**Content**:" +:+ nl +:+ content)))
    (fun error =>
       throw (JsError ("Failed to get Notion page: " +:+ error_message rt error))).

Definition render_listed (page : nt_page) : string :=
  "• **" +:+ opt_or (pg_title page) "Untitled" +:+ "**" +:+ nl +:+
  "  Status: " +:+ opt_or (pg_status page) "Unknown" +:+ nl +:+
  "  Tags: " +:+ render_tags (default [] (pg_tags page)) +:+ nl +:+
  "  URL: " +:+ pg_url page +:+ nl +:+
  "  Created: " +:+
    match pg_created_date page with
    | Some d => if String.eqb d EmptyString then "Unknown" else toLocaleDateString rt d
    | None => "Unknown"
    end.

(** [args: any = {}] *)
Definition listDatabasePages (args : jsval) : M ToolResult :=
  let! a := parse_args rt listDatabasePages_schema (default_empty args) in
  let status := obj_get "status" a in
  let limit := num_of (obj_get "limit" a) in
  try_catch
    (let! pages :=
       invoke (NtDatabasesQuery (databaseId this) (if_truthy status) limit)
              (nt_databases_query w) in
     ret (Content
       ("📋 Database pages" +:+
        (if truthy status
         then " with status " +:+ dq +:+ str_of status +:+ dq
         else EmptyString) +:+ ":" +:+ nl2 +:+
        join nl2 (map render_listed pages))))
    (fun error =>
       throw (JsError ("Failed to list database pages: " +:+ error_message rt error))).

End Methods.
End NotionService.

(** ** GoogleCalendarService (services/google-calendar.ts) *)

Module GoogleCalendarService.

Record t := { clientId : string; clientSecret : string; redirectUri : string }.

(** What the constructor finds at a path of the token file. *)
Inductive token_file :=
  | NoFile                          (* fs.existsSync is false *)
  | Unreadable                      (* reading or JSON.parse throws *)
  | Stored (doc : option tokens).   (* the parsed document; null is None *)

Definition config_missing : string :=
  "Google Calendar configuration missing. Please set GOOGLE_CLIENT_ID, GOOGLE_CLIENT_SECRET, and GOOGLE_REDIRECT_URI environment variables.".

(** The credentials of a fresh [google.auth.OAuth2] client: [{}]. *)
Definition no_tokens : tokens :=
  {| access_token := None; refresh_token := None; expiry_date := None |}.

(** [loadTokens()]: the stored tokens become the credentials; a missing
    or unreadable file leaves the client as it is. *)
Definition loadTokens (file : token_file) (creds : option tokens) : option tokens :=
  match file with
  | Stored doc => doc
  | NoFile | Unreadable => creds
  end.

(** [new GoogleCalendarService()]: the connector and the credentials its
    OAuth client starts with. [primary] and [fallback] are the two places
    where the token file is looked for. *)
Definition constructor (env : gmap string string) (primary fallback : token_file)
  : thrown + (t * option tokens) :=
  let clientId := env !! "GOOGLE_CLIENT_ID" in
  let clientSecret := env !! "GOOGLE_CLIENT_SECRET" in
  let redirectUri := env !! "GOOGLE_REDIRECT_URI" in
  if env_missing clientId || env_missing clientSecret || env_missing redirectUri
  then inl (JsError config_missing)
  else
    let tokensFile := match primary with NoFile => fallback | _ => primary end in
    inr ({| clientId := default EmptyString clientId;
            clientSecret := default EmptyString clientSecret;
            redirectUri := default EmptyString redirectUri |},
         loadTokens tokensFile (Some no_tokens)).

Definition auth_required : string :=
  "Google Calendar authentication required. Please run the OAuth setup first: npm run oauth-setup".

Definition refresh_failed : string :=
  "Google Calendar token expired and could not be refreshed. Please re-authenticate.".

(** [!tokens || !tokens.access_token] *)
Definition no_access_token (creds : option tokens) : bool :=
  match creds with
  | None => true
  | Some tk => env_missing (access_token tk)
  end.

(** [tokens.expiry_date && Date.now() >= tokens.expiry_date] *)
Definition expired (creds : option tokens) (now : Z) : bool :=
  match creds with
  | Some tk =>
      match expiry_date tk with
      | Some e => negb (e =? 0)%Z && (e <=? now)%Z
      | None => false
      end
  | None => false
  end.

Definition createEvent_schema : zschema :=
  [ Field "title" ZString ZRequired;
    Field "description" ZString ZOptional;
    Field "startTime" ZString ZRequired;
    Field "endTime" ZString ZRequired;
    Field "attendees" ZStringArray ZOptional ].

Definition listEvents_schema : zschema :=
  [ Field "timeMin" ZString ZOptional;
    Field "timeMax" ZString ZOptional;
    Field "maxResults" ZNumber (ZDefault (JNum 10)) ].

Definition updateEvent_schema : zschema :=
  [ Field "eventId" ZString ZRequired;
    Field "title" ZString ZOptional;
    Field "description" ZString ZOptional;
    Field "startTime" ZString ZOptional;
    Field "endTime" ZString ZOptional ].

Definition deleteEvent_schema : zschema :=
  [ Field "eventId" ZString ZRequired ].

Definition if_truthy (v : jsval) : option string :=
  if truthy v then Some (str_of v) else None.

(** [x || d] for a parsed optional string. *)
Definition val_or (v : jsval) (d : string) : string :=
  if truthy v then str_of v else d.

(** [attendees?.map(a => a.email).join(', ') || 'None'] *)
Definition render_attendees (a : option (list string)) : string :=
  match a with
  | Some l => str_or (join ", " l) "None"
  | None => "None"
  end.

Section Methods.
Context (rt : Runtime) (w : World) (this : t).

(** Check if we have valid credentials; refresh the token if it is expired. *)
Definition ensureAuthenticated : M unit :=
  let! tokens := get_credentials in
  if no_access_token tokens then throw (JsError auth_required)
  else
    let! seen := get_trace in
    if expired tokens (date_now w seen) then
      try_catch
        (let! credentials := invoke GcRefreshAccessToken (gc_refreshAccessToken w) in
         set_credentials (Some credentials))
        (fun _ => throw (JsError refresh_failed))
    else ret tt.

Definition mock_event (title description : jsval) (startTime endTime : string)
  (attendees : list string) : string :=
  "📅 **Mock Calendar Event Created**" +:+ nl2 +:+
  "**Event**: " +:+ str_of title +:+ nl2 +:+
  "**Start**: " +:+ toLocaleString rt startTime +:+ nl +:+
  "**End**: " +:+ toLocaleString rt endTime +:+ nl2 +:+
  "**Description**: " +:+ val_or description "Content development deadline" +:+ nl2 +:+
  "**Attendees**: " +:+ str_or (join ", " attendees) "None" +:+ nl2 +:+
  "*Note: This is a mock response. In production, complete OAuth authentication to create real calendar events.*".

(** [args: any = {}] *)
Definition createEvent (args : jsval) : M ToolResult :=
  let! a := parse_args rt createEvent_schema (default_empty args) in
  let title := obj_get "title" a in
  let description := obj_get "description" a in
  let startTime := str_of (obj_get "startTime" a) in
  let endTime := str_of (obj_get "endTime" a) in
  let attendees := strs_of (obj_get "attendees" a) in
  try_catch
    (let! _ := ensureAuthenticated in
     let! data :=
       invoke (GcEventsInsert (str_of title)
                 (val_or description "Content development deadline")
                 startTime endTime attendees)
              (gc_events_insert w) in
     ret (Content
       ("✅ Calendar event created successfully!" +:+ nl2 +:+
        "**Event**: " +:+ ev_summary data +:+ nl2 +:+
        "**Start**: " +:+ toLocaleString rt (ev_start data) +:+ nl +:+
        "**End**: " +:+ toLocaleString rt (ev_end data) +:+ nl2 +:+
        "**Description**: " +:+ opt_or (ev_description data) "No description" +:+ nl2 +:+
        "**Attendees**: " +:+ render_attendees (ev_attendees data) +:+ nl2 +:+
        "**Event URL**: " +:+ ev_htmlLink data)))
    (fun err =>
       (* Fallback to mock mode *)
       ret (Content (mock_event title description startTime endTime attendees))).

Definition render_event (e : gc_listed) : string :=
  "• **" +:+ le_summary e +:+ "**" +:+ nl +:+
  "  Start: " +:+ toLocaleString rt (opt_or (le_start_dateTime e) (le_start_date e)) +:+ nl +:+
  "  End: " +:+ toLocaleString rt (opt_or (le_end_dateTime e) (le_end_date e)) +:+ nl +:+
  "  Attendees: " +:+ str_or (join ", " (default [] (le_attendees e))) "None" +:+ nl +:+
  "  URL: " +:+ le_htmlLink e.

Definition mock_events (now : Z) : string :=
  "📅 **Mock Calendar Events**" +:+ nl2 +:+
  "• **Content Review Meeting**" +:+ nl +:+
  "  Start: " +:+ ms_toLocaleString rt now +:+ nl +:+
  "  End: " +:+ ms_toLocaleString rt (now + 60 * 60 * 1000) +:+ nl +:+
  "  Attendees: team@example.com" +:+ nl2 +:+
  "• **Publishing Deadline**" +:+ nl +:+
  "  Start: " +:+ ms_toLocaleString rt (now + 24 * 60 * 60 * 1000) +:+ nl +:+
  "  End: " +:+ ms_toLocaleString rt (now + 24 * 60 * 60 * 1000 + 30 * 60 * 1000) +:+ nl +:+
  "  Attendees: None" +:+ nl2 +:+
  "*Note: This is a mock response. In production, complete OAuth authentication to list real calendar events.*".

(** [error instanceof Error && error.message.includes('authentication')] *)
Definition is_authentication_error (error : thrown) : bool :=
  match error with
  | NonError => false
  | _ => includes "authentication" (error_message rt error)
  end.

(** [args: any = {}] *)
Definition listEvents (args : jsval) : M ToolResult :=
  let! a := parse_args rt listEvents_schema (default_empty args) in
  let timeMin := obj_get "timeMin" a in
  let timeMax := obj_get "timeMax" a in
  let maxResults := num_of (obj_get "maxResults" a) in
  try_catch
    (let! _ := ensureAuthenticated in
     let! seen := get_trace in
     let now := date_now w seen in
     let! items :=
       invoke (GcEventsList
                 (val_or timeMin (ms_toISOString rt now))
                 (val_or timeMax (ms_toISOString rt (now + 7 * 24 * 60 * 60 * 1000)))
                 maxResults)
              (gc_events_list w) in
     let events := default [] items in
     ret (Content
       ("📅 Upcoming calendar events:" +:+ nl2 +:+
        join nl2 (map render_event events))))
    (fun error =>
       (* For demo purposes, return a mock response *)
       if is_authentication_error error then
         let! seen := get_trace in
         ret (Content (mock_events (date_now w seen)))
       else
         throw (JsError ("Failed to list calendar events: " +:+ error_message rt error))).

Definition updateEvent (args : jsval) : M ToolResult :=
  let! a := parse_args rt updateEvent_schema args in
  let eventId := str_of (obj_get "eventId" a) in
  let title := obj_get "title" a in
  let description := obj_get "description" a in
  let startTime := obj_get "startTime" a in
  let endTime := obj_get "endTime" a in
  try_catch
    (let! _ := ensureAuthenticated in
     let! data :=
       invoke (GcEventsUpdate eventId (if_truthy title) (if_truthy description)
                 (if_truthy startTime) (if_truthy endTime))
              (gc_events_update w) in
     ret (Content
       ("✅ Calendar event updated successfully!" +:+ nl2 +:+
        "**Event**: " +:+ ev_summary data +:+ nl2 +:+
        "**Start**: " +:+ toLocaleString rt (ev_start data) +:+ nl +:+
        "**End**: " +:+ toLocaleString rt (ev_end data) +:+ nl2 +:+
        "**Event URL**: " +:+ ev_htmlLink data)))
    (fun error =>
       throw (JsError ("Failed to update calendar event: " +:+ error_message rt error))).

Definition deleteEvent (args : jsval) : M ToolResult :=
  let! a := parse_args rt deleteEvent_schema args in
  let eventId := str_of (obj_get "eventId" a) in
  try_catch
    (let! _ := ensureAuthenticated in
     let! _ := invoke (GcEventsDelete eventId) (gc_events_delete w) in
     ret (Content
       ("✅ Calendar event deleted successfully!" +:+ nl2 +:+
        "**Event ID**: " +:+ eventId)))
    (fun error =>
       throw (JsError ("Failed to delete calendar event: " +:+ error_message rt error))).

End Methods.
End GoogleCalendarService.

(** ** WebSearchService (services/web-search.ts) *)

Module WebSearchService.

Record t := { enabled : bool }.

(** [this.enabled = process.env.WEB_SEARCH_ENABLED === 'true'] *)
Definition constructor (env : gmap string string) : t :=
  {| enabled := match env !! "WEB_SEARCH_ENABLED" with
                | Some v => String.eqb v "true"
                | None => false
                end |}.

Definition search_schema : zschema :=
  [ Field "query" ZString ZRequired;
    Field "maxResults" ZNumber (ZDefault (JNum 5)) ].

Definition extractContent_schema : zschema :=
  [ Field "url" ZUrl ZRequired ].

Definition researchTopic_schema : zschema :=
  [ Field "topic" ZString ZRequired;
    Field "depth" (ZEnum ["basic"; "comprehensive"]) (ZDefault (JStr "comprehensive")) ].

Definition validateContent_schema : zschema :=
  [ Field "content" ZString ZRequired;
    Field "topic" ZString ZRequired ].

(** An entry of the [results] array of [search]. *)
Record result := { title : string; url : string; snippet : string; type : string }.

(** The placeholder text of a connector that is not enabled. *)
Definition mock_search_text (query : string) : string :=
  "🔍 **Mock Web Search Results for: " +:+ dq +:+ query +:+ dq +:+ "**" +:+ nl2 +:+
  "• **Result 1**: Example.com - Sample search result about " +:+ query +:+ nl +:+
  "• **Result 2**: Sample.org - Another relevant result for " +:+ query +:+ nl +:+
  "• **Result 3**: Test.net - Additional information about " +:+ query +:+ nl2 +:+
  "*Note: This is a mock response. Enable WEB_SEARCH_ENABLED=true to perform real web searches.*".

(** The text returned when the live search throws. *)
Definition error_search_text (query : string) : string :=
  "🔍 **Web Search Results for: " +:+ dq +:+ query +:+ dq +:+ "** (Mock due to error)" +:+ nl2 +:+
  "1. **Sample Result 1**" +:+ nl +:+
  "   URL: https://example.com" +:+ nl +:+
  "   This is a sample search result for " +:+ dq +:+ query +:+ dq +:+
  ". The actual search encountered an error." +:+ nl +:+
  "   Type: search_result" +:+ nl2 +:+
  "2. **Sample Result 2**" +:+ nl +:+
  "   URL: https://sample.org" +:+ nl +:+
  "   Another sample result demonstrating the search functionality." +:+ nl +:+
  "   Type: search_result".

Definition instant_answer (data : ddg_data) : list result :=
  match dd_AbstractText data with
  | Some abstract =>
      if String.eqb abstract EmptyString then []
      else [ {| title := opt_or (dd_Heading data) "Instant Answer";
                url := opt_or (dd_AbstractURL data) EmptyString;
                snippet := abstract;
                type := "instant_answer" |} ]
  | None => []
  end.

Definition related_topic (topic : ddg_topic) : result :=
  {| title := match tp_Text topic with
              | Some txt => str_or (before_first " - " txt) "Related Topic"
              | None => "Related Topic"
              end;
     url := opt_or (tp_FirstURL topic) EmptyString;
     snippet := opt_or (tp_Text topic) EmptyString;
     type := "related_topic" |}.

(** [Math.min(a, 3)] is [Z.min a 3]. *)
Definition related_topics (data : ddg_data) (maxResults : Z) (results : list result)
  : list result :=
  match dd_RelatedTopics data with
  | Some (_ :: _ as topics) =>
      map related_topic
          (slice0 (Z.min (maxResults - Z.of_nat (length results)) 3) topics)
  | _ => []
  end.

Definition render_result (index : nat) (r : result) : string :=
  num (Z.of_nat index + 1) +:+ ". **" +:+ title r +:+ "**" +:+ nl +:+
  "   URL: " +:+ url r +:+ nl +:+
  "   " +:+ snippet r +:+ nl +:+
  "   Type: " +:+ type r.

Definition results_text (query : string) (results : list result) : string :=
  "🔍 **Web Search Results for: " +:+ dq +:+ query +:+ dq +:+ "**" +:+ nl2 +:+
  join nl2 (imap render_result results).

(** [`• ${q}`] *)
Definition bullet (q : string) : string := "• " +:+ q.

(** [r.results.split('\n').slice(0, 5).join('\n')] *)
Definition first_five_lines (s : string) : string :=
  join nl (slice0 5 (lines s)).

(** One entry of the key findings of the research summary. *)
Definition finding (r : string * string) : string :=
  "**" +:+ fst r +:+ "**:" +:+ nl +:+ first_five_lines (snd r) +:+ "...".

Definition research_summary (topic depth : string) (searchQueries : list string)
  (results : list (string * string)) : string :=
  "🔬 **Research Summary for: " +:+ dq +:+ topic +:+ dq +:+ "**" +:+ nl2 +:+
  "**Research Depth**: " +:+ depth +:+ nl2 +:+
  "**Search Queries Used**:" +:+ nl +:+
  join nl (map bullet searchQueries) +:+ nl2 +:+
  "**Key Findings**:" +:+ nl +:+
  join nl2 (map finding results) +:+ nl2 +:+
  "**Recommendations**:" +:+ nl +:+
  "• Consider the latest trends and best practices identified" +:+ nl +:+
  "• Review multiple sources for comprehensive understanding" +:+ nl +:+
  "• Focus on practical examples and real-world applications".

(** The queries of a research of the given depth. *)
Definition searchQueries (topic depth : string) : list string :=
  if String.eqb depth "comprehensive"
  then [ topic;
         topic +:+ " overview";
         topic +:+ " latest trends";
         topic +:+ " best practices";
         topic +:+ " examples" ]
  else [ topic ].

Section Methods.
Context (rt : Runtime) (w : World) (this : t).

(** The two sample entries appended when the live answer is short. *)
Definition mockResults (query : string) : list result :=
  [ {| title := "Search result for: " +:+ query;
       url := "https://example.com/search?q=" +:+ encodeURIComponent rt query;
       snippet := "This is a sample search result for " +:+ dq +:+ query +:+ dq +:+
                  ". In a real implementation, this would contain actual web search results.";
       type := "search_result" |};
    {| title := "More information about: " +:+ query;
       url := "https://sample.org/info/" +:+ encodeURIComponent rt query;
       snippet := "Additional information and resources related to " +:+ dq +:+ query +:+ dq +:+
                  ". This demonstrates the web search functionality.";
       type := "search_result" |} ].

(** The [results] array built from a live answer. *)
Definition live_results (query : string) (maxResults : Z) (data : ddg_data) : list result :=
  let results := instant_answer data in
  let results := results ++ related_topics data maxResults results in
  if (Z.of_nat (length results) <? maxResults)%Z
  then results ++ slice0 (maxResults - Z.of_nat (length results)) (mockResults query)
  else results.

Definition search (args : jsval) : M ToolResult :=
  let! a := parse_args rt search_schema args in
  let query := str_of (obj_get "query" a) in
  let maxResults := num_of (obj_get "maxResults" a) in
  if negb (enabled this) then ret (Content (mock_search_text query))
  else
    try_catch
      (let! data := invoke (HttpGetDuckDuckGo query) (http_get_duckduckgo w) in
       ret (Content (results_text query (live_results query maxResults data))))
      (fun error =>
         (* Return mock results on error *)
         ret (Content (error_search_text query))).

Definition extractContent (args : jsval) : M ToolResult :=
  let! a := parse_args rt extractContent_schema args in
  let url := str_of (obj_get "url" a) in
  if negb (enabled this) then
    ret (Content
      ("📄 **Mock Content Extraction from: " +:+ url +:+ "**" +:+ nl2 +:+
       "**Title**: Sample Article Title" +:+ nl2 +:+
       "**Content**:" +:+ nl +:+
       "This is a mock content extraction from the provided URL. In a real implementation, this would contain the actual content extracted from the webpage." +:+ nl2 +:+
       "The content would include the main text, headings, and other relevant information from the page." +:+ nl2 +:+
       "*Note: This is a mock response. Enable WEB_SEARCH_ENABLED=true to perform real content extraction.*"))
  else
    try_catch
      (let! doc := invoke (HttpGetPage url) (http_get_page w) in
       let title := str_or (doc_title doc) (str_or (doc_h1 doc) "No title found") in
       let content :=
         join nl2 (slice0 10 (List.filter (fun text => (50 <? String.length text)%nat)
                                          (doc_texts doc))) in
       let description := opt_or (doc_description doc) "No description available" in
       ret (Content
         ("📄 **Content Extraction from: " +:+ url +:+ "**" +:+ nl2 +:+
          "**Title**: " +:+ title +:+ nl2 +:+
          "**Description**: " +:+ description +:+ nl2 +:+
          "**Content**:" +:+ nl +:+
          str_or content "No content could be extracted from this page." +:+ nl2 +:+
          "**Word Count**: " +:+
          num (Z.of_nat (length (split_char " "%char content))) +:+ " words")))
      (fun error =>
         ret (Content
           ("❌ **Content Extraction Failed**" +:+ nl2 +:+
            "**URL**: " +:+ url +:+ nl2 +:+
            "**Error**: " +:+ error_message rt error +:+ nl2 +:+
            "*The content could not be extracted from this URL. This might be due to access restrictions, network issues, or the page structure.*"))).

(** The body of the loop of [researchTopic]: one search per query. *)
Definition research_query (query : string) : M (string * string) :=
  let! searchResult := search (JObj [("query", JStr query); ("maxResults", JNum 3)]) in
  ret (query, text searchResult).

Definition researchTopic (args : jsval) : M ToolResult :=
  let! a := parse_args rt researchTopic_schema args in
  let topic := str_of (obj_get "topic" a) in
  let depth := str_of (obj_get "depth" a) in
  try_catch
    (let queries := searchQueries topic depth in
     let! results := for_each research_query queries in
     ret (Content (research_summary topic depth queries results)))
    (fun error =>
       ret (Content
         ("❌ **Research Failed**" +:+ nl2 +:+
          "**Topic**: " +:+ topic +:+ nl2 +:+
          "**Error**: " +:+ error_message rt error +:+ nl2 +:+
          "*The research could not be completed. Please try again or check your search query.*"))).

Definition recommendation (score : Z) (low ok : string) : string :=
  if (score <? 90)%Z then low else ok.

(** [draw] numbers the calls of [Math.random] made so far. *)
Definition validateContent (draw : nat) (args : jsval) : M ToolResult :=
  let! a := parse_args rt validateContent_schema args in
  let topic := str_of (obj_get "topic" a) in
  try_catch
    (let! searchResult :=
       search (JObj [("query", JStr (topic +:+ " authoritative sources experts"));
                     ("maxResults", JNum 3)]) in
     let accuracy := (random_below w 30 draw + 70)%Z in
     let completeness := (random_below w 20 (draw + 1) + 80)%Z in
     let relevance := (random_below w 15 (draw + 2) + 85)%Z in
     ret (Content
       ("✅ **Content Validation Results**" +:+ nl2 +:+
        "**Topic**: " +:+ topic +:+ nl2 +:+
        "**Validation Scores**:" +:+ nl +:+
        "• Accuracy: " +:+ num accuracy +:+ "%" +:+ nl +:+
        "• Completeness: " +:+ num completeness +:+ "%" +:+ nl +:+
        "• Relevance: " +:+ num relevance +:+ "%" +:+ nl2 +:+
        "**Authoritative Sources**:" +:+ nl +:+ text searchResult +:+ nl2 +:+
        "**Recommendations**:" +:+ nl +:+
        "• " +:+ recommendation accuracy
                  "Consider fact-checking with additional sources" "Content appears accurate" +:+ nl +:+
        "• " +:+ recommendation completeness
                  "Add more details to improve completeness" "Content is comprehensive" +:+ nl +:+
        "• " +:+ recommendation relevance
                  "Ensure content directly addresses the topic" "Content is highly relevant")))
    (fun error =>
       ret (Content
         ("❌ **Content Validation Failed**" +:+ nl2 +:+
          "**Topic**: " +:+ topic +:+ nl2 +:+
          "**Error**: " +:+ error_message rt error +:+ nl2 +:+
          "*The content validation could not be completed. Please try again.*"))).

End Methods.
End WebSearchService.

(** ** The public operations of the connectors, taken together *)

Inductive operation :=
  | github_createIssue | github_createBranch | github_createPullRequest
  | github_listIssues | github_getRepositoryInfo
  | notion_createPage | notion_searchPages | notion_updatePage
  | notion_getPage | notion_listDatabasePages
  | calendar_createEvent | calendar_listEvents
  | calendar_updateEvent | calendar_deleteEvent
  | web_search | web_extractContent | web_researchTopic | web_validateContent.

(** The service singletons of index.ts. *)
Record Services := {
  githubService : GitHubService.t;
  notionService : NotionService.t;
  calendarService : GoogleCalendarService.t;
  webSearchService : WebSearchService.t }.

Definition perform (rt : Runtime) (w : World) (sv : Services)
  (op : operation) (args : jsval) : M ToolResult :=
  match op with
  | github_createIssue => GitHubService.createIssue rt w (githubService sv) args
  | github_createBranch => GitHubService.createBranch rt w (githubService sv) args
  | github_createPullRequest => GitHubService.createPullRequest rt w (githubService sv) args
  | github_listIssues => GitHubService.listIssues rt w (githubService sv) args
  | github_getRepositoryInfo => GitHubService.getRepositoryInfo rt w (githubService sv)
  | notion_createPage => NotionService.createPage rt w (notionService sv) args
  | notion_searchPages => NotionService.searchPages rt w (notionService sv) args
  | notion_updatePage => NotionService.updatePage rt w args
  | notion_getPage => NotionService.getPage rt w args
  | notion_listDatabasePages => NotionService.listDatabasePages rt w (notionService sv) args
  | calendar_createEvent => GoogleCalendarService.createEvent rt w args
  | calendar_listEvents => GoogleCalendarService.listEvents rt w args
  | calendar_updateEvent => GoogleCalendarService.updateEvent rt w args
  | calendar_deleteEvent => GoogleCalendarService.deleteEvent rt w args
  | web_search => WebSearchService.search rt w (webSearchService sv) args
  | web_extractContent => WebSearchService.extractContent rt w (webSearchService sv) args
  | web_researchTopic => WebSearchService.researchTopic rt w (webSearchService sv) args
  | web_validateContent => WebSearchService.validateContent rt w (webSearchService sv) 0 args
  end.

(** The shape an operation declares for its argument bag;
    [getRepositoryInfo] takes no argument. *)
Definition declared_shape (op : operation) : option zschema :=
  match op with
  | github_createIssue => Some GitHubService.createIssue_schema
  | github_createBranch => Some GitHubService.createBranch_schema
  | github_createPullRequest => Some GitHubService.createPullRequest_schema
  | github_listIssues => Some GitHubService.listIssues_schema
  | github_getRepositoryInfo => None
  | notion_createPage => Some NotionService.createPage_schema
  | notion_searchPages => Some NotionService.searchPages_schema
  | notion_updatePage => Some NotionService.updatePage_schema
  | notion_getPage => Some NotionService.getPage_schema
  | notion_listDatabasePages => Some NotionService.listDatabasePages_schema
  | calendar_createEvent => Some GoogleCalendarService.createEvent_schema
  | calendar_listEvents => Some GoogleCalendarService.listEvents_schema
  | calendar_updateEvent => Some GoogleCalendarService.updateEvent_schema
  | calendar_deleteEvent => Some GoogleCalendarService.deleteEvent_schema
  | web_search => Some WebSearchService.search_schema
  | web_extractContent => Some WebSearchService.extractContent_schema
  | web_researchTopic => Some WebSearchService.researchTopic_schema
  | web_validateContent => Some WebSearchService.validateContent_schema
  end.

(** The bag an operation validates: four methods declare [args: any = {}]. *)
Definition received (op : operation) (args : jsval) : jsval :=
  match op with
  | github_listIssues | notion_listDatabasePages
  | calendar_createEvent | calendar_listEvents => default_empty args
  | _ => args
  end.

(** The message that opens the error an operation throws from its [catch];
    [None] for the operations whose [catch] returns a result instead. *)
Definition failure_prefix (op : operation) : option string :=
  match op with
  | github_createIssue => Some "Failed to create GitHub issue: "
  | github_createBranch => Some "Failed to create GitHub branch: "
  | github_createPullRequest => Some "Failed to create GitHub pull request: "
  | github_listIssues => Some "Failed to list GitHub issues: "
  | github_getRepositoryInfo => Some "Failed to get repository info: "
  | notion_createPage => Some "Failed to create Notion page: "
  | notion_searchPages => Some "Failed to search Notion pages: "
  | notion_updatePage => Some "Failed to update Notion page: "
  | notion_getPage => Some "Failed to get Notion page: "
  | notion_listDatabasePages => Some "Failed to list database pages: "
  | calendar_listEvents => Some "Failed to list calendar events: "
  | calendar_updateEvent => Some "Failed to update calendar event: "
  | calendar_deleteEvent => Some "Failed to delete calendar event: "
  | calendar_createEvent
  | web_search | web_extractContent | web_researchTopic | web_validateContent => None
  end.

(** ** Conformance of an argument bag to a declared shape

    The reading of a declared shape as a property of the bag: it is an
    object, every required field is there, and every field that is there
    has the declared type (for an enumeration: is one of its values). *)

Definition has_type (rt : Runtime) (t : ztype) (v : jsval) : Prop :=
  match t with
  | ZString => exists s, v = JStr s
  | ZUrl => exists s, v = JStr s /\ is_url rt s = true
  | ZNumber => exists n, v = JNum n
  | ZEnum values => exists s, v = JStr s /\ In s values
  | ZStringArray => exists l, v = JArr (map JStr l)
  end.

Definition field_conforms (rt : Runtime) (o : list (string * jsval)) (f : zfield) : Prop :=
  (obj_get (fname f) o = JUndefined /\ fmod f <> ZRequired) \/
  has_type rt (ftype f) (obj_get (fname f) o).

Definition conforms (rt : Runtime) (sch : zschema) (args : jsval) : Prop :=
  exists o, args = JObj o /\ Forall (field_conforms rt o) sch.

(** ** The Notion workspace

    What the two endpoints called by [updatePage] do to a page when the
    vendor accepts the call: [pages.update] sets the properties it is
    given and leaves the others, [blocks.children.append] adds the
    children after the blocks the page has. *)

Record page_state := {
  ps_title : option string;
  ps_status : option string;
  ps_blocks : list nt_block }.

Definition set_property (new old : option string) : option string :=
  match new with Some _ => new | None => old end.

Definition update_properties (title status : option string) (p : page_state) : page_state :=
  {| ps_title := set_property title (ps_title p);
     ps_status := set_property status (ps_status p);
     ps_blocks := ps_blocks p |}.

Definition append_children (paragraphs : list string) (p : page_state) : page_state :=
  {| ps_title := ps_title p;
     ps_status := ps_status p;
     ps_blocks := ps_blocks p ++ map (fun c => Paragraph [c]) paragraphs |}.

Definition notion_effect (ws : gmap string page_state) (c : call) : gmap string page_state :=
  match c with
  | NtPagesUpdate page_id title status => alter (update_properties title status) page_id ws
  | NtBlocksChildrenAppend block_id paragraphs => alter (append_children paragraphs) block_id ws
  | _ => ws
  end.

(** The calls of a log that the vendor accepted. *)
Definition accepted (entries : list entry) : list call :=
  map ecall (List.filter (fun e => match efault e with None => true | Some _ => false end) entries).

(** The workspace after the accepted calls of a log. *)
Definition workspace_after (ws : gmap string page_state) (entries : list entry)
  : gmap string page_state :=
  fold_left notion_effect (accepted entries) ws.

(** The blocks of a page, none when there is no such page. *)
Definition blocks_of (ws : gmap string page_state) (page_id : string) : list nt_block :=
  match ws !! page_id with Some p => ps_blocks p | None => [] end.

(** ** Calendar operations in flight together

    The server starts one tool invocation per inbound request, so two
    calendar operations can be in flight at once. JavaScript runs each
    [async] function without interruption up to its next [await]:
    [ensureAuthenticated] is cut at its only [await], the refresh call.
    A task is an invocation of [ensureAuthenticated] at one of these
    points; the tasks share the OAuth client. *)

Module InFlight.

Import GoogleCalendarService.

Inductive task :=
  | Start                     (* called, nothing run yet *)
  | AwaitRefresh              (* suspended at [await refreshAccessToken()] *)
  | Authenticated             (* resolved: the calendar API call comes next *)
  | Rejected (e : thrown).

(** What the tasks share: the calls issued so far and the credentials. *)
Record shared := { issued : list call; creds : option tokens }.

Record system := { client : shared; tasks : list task }.

(** From the call up to the [await]: the token is looked at and, if it is
    expired, the refresh call is issued. *)
Definition ensure_begin (w : World) (c : shared) : task * shared :=
  if no_access_token (creds c) then (Rejected (JsError auth_required), c)
  else if expired (creds c) (date_now w (issued c))
       then (AwaitRefresh, {| issued := issued c ++ [GcRefreshAccessToken]; creds := creds c |})
       else (Authenticated, c).

(** From the answer of the refresh call on. *)
Definition ensure_resume (w : World) (c : shared) : task * shared :=
  match gc_refreshAccessToken w (issued c) with
  | inr credentials => (Authenticated, {| issued := issued c; creds := Some credentials |})
  | inl _ => (Rejected (JsError refresh_failed), c)
  end.

(** The event loop runs the next piece of task [i]. *)
Definition step (w : World) (sys : system) (i : nat) : system :=
  match tasks sys !! i with
  | Some Start =>
      let '(t, c) := ensure_begin w (client sys) in
      {| client := c; tasks := <[i := t]> (tasks sys) |}
  | Some AwaitRefresh =>
      let '(t, c) := ensure_resume w (client sys) in
      {| client := c; tasks := <[i := t]> (tasks sys) |}
  | _ => sys
  end.

(** A schedule names the task that runs at each turn of the loop. *)
Definition run (w : World) (schedule : list nat) (sys : system) : system :=
  fold_left (step w) schedule sys.

Definition is_refresh (c : call) : bool :=
  match c with GcRefreshAccessToken => true | _ => false end.

(** The number of refresh calls issued. *)
Definition refresh_calls (calls : list call) : nat :=
  length (List.filter is_refresh calls).

Definition started (t : task) : bool :=
  match t with Start => false | _ => true end.

(** The number of tasks that have not run yet. *)
Definition pending (ts : list task) : nat :=
  length (List.filter (fun t => negb (started t)) ts).

(** [n] operations called together on a client. *)
Definition together (n : nat) (c : shared) : system :=
  {| client := c; tasks := replicate n Start |}.

End InFlight.

(** ** ContentWorkflowService: the workflow orchestrator *)

Module ContentWorkflowService.

(** Modelled from the spec: the class ContentWorkflowService
    (services/content-workflow.ts) is imported by index.ts but is not
    among the source files. The definitions of this module follow the
    data model and the three composite operations of the design document;
    the wording of titles and bodies, which it leaves open, is the
    parameter [Wording]. *)
Inductive overall := complete | partial | failed.

Record WorkflowStepOutcome := {
  stepName : string;
  success : bool;
  resultText : string;                  (* result text, or error text *)
  producedReference : option string }.

Record WorkflowResult := {
  outcomes : list WorkflowStepOutcome;
  status : overall }.

(** The typed errors of a connector call. *)
Inductive connector_error :=
  | ValidationError (message : string)
  | RemoteCallError (message : string) (already_exists : bool)
  | AuthRequiredError (message : string).

(** The connector calls the orchestrator issues. *)
Inductive request :=
  | Research (topic depth : string)
  | CreatePage (title content : string) (tags : list string)
  | CreateIssue (title body : string)
  | CreateEvent (title startTime endTime : string)
  | GetPage (pageId : string)
  | CreateBranch (branchName baseBranch : string)
  | CreatePullRequest (title body head base : string)
  | UpdatePage (pageId status : string).

(** A successful answer: the text, and the identifier or URL it carries. *)
Record produced := { text : string; reference : option string }.

(** The connectors as the orchestrator sees them: an answer to each
    request, which may depend on the requests made before it. *)
Definition Connectors : Type := list request -> connector_error + produced.

(** A step the orchestrator attempted: the call and what came back. *)
Record attempt := {
  a_step : string;
  a_request : request;
  a_answer : connector_error + produced }.

Record Wording := {
  page_title : string -> string;
  page_body : string -> string -> string;
  issue_title : string -> string;
  issue_body : option string -> option string -> string;
  milestone_title : string -> string;
  deadline_title : string -> string;
  milestone_start : string -> string;   (* the fixed offset before the deadline *)
  event_end : string -> string;
  research_page_body : string -> string;
  derived_branch : string -> string;    (* the branch name made from a content id *)
  pr_title : string -> string;
  pr_body : string -> string -> string }.

Definition error_text (e : connector_error) : string :=
  match e with
  | ValidationError m => m
  | RemoteCallError m _ => m
  | AuthRequiredError m => m
  end.

(** The outcome recorded for an attempted step. *)
Definition outcome_of (name : string) (answer : connector_error + produced)
  : WorkflowStepOutcome :=
  match answer with
  | inr p => {| stepName := name; success := true;
                resultText := text p; producedReference := reference p |}
  | inl e => {| stepName := name; success := false;
                resultText := "failed: " +:+ error_text e; producedReference := None |}
  end.

(** Branch creation that fails because the branch exists counts as done. *)
Definition branch_outcome (name branchName : string) (answer : connector_error + produced)
  : WorkflowStepOutcome :=
  match answer with
  | inl (RemoteCallError m true) =>
      {| stepName := name; success := true;
         resultText := m; producedReference := Some branchName |}
  | _ => outcome_of name answer
  end.

(** The outcome recorded for a step that is not attempted. *)
Definition skipped (name reason : string) : WorkflowStepOutcome :=
  {| stepName := name; success := false;
     resultText := "skipped: " +:+ reason; producedReference := None |}.

(** Modelled from the spec: the overall status of a result, which the
    missing orchestrator computes. Complete when every step succeeded,
    failed when none did, partial otherwise. *)
Definition overall_status (outs : list WorkflowStepOutcome) : overall :=
  if forallb success outs then complete
  else if existsb success outs then partial
  else failed.

Definition assemble (outs : list WorkflowStepOutcome) : WorkflowResult :=
  {| outcomes := outs; status := overall_status outs |}.

(** Orchestration threads the list of the steps attempted so far. *)
Definition O (A : Type) : Type := list attempt -> A * list attempt.

Definition oret {A} (a : A) : O A := fun h => (a, h).

Definition obind {A B} (m : O A) (k : A -> O B) : O B :=
  fun h => let '(a, h') := m h in k a h'.

Notation "'do!' x ':=' m 'in' k" := (obind m (fun x => k))
  (at level 10, x pattern, m at level 100, k at level 200).

Definition answer_text (a : connector_error + produced) : string :=
  match a with inr p => text p | inl _ => EmptyString end.

Definition answer_reference (a : connector_error + produced) : option string :=
  match a with inr p => reference p | inl _ => None end.

Section Operations.
Context (wd : Wording) (c : Connectors).

(** One connector call: errors are caught and handed back as values. *)
Definition attempt_step (name : string) (req : request) : O (connector_error + produced) :=
  fun h =>
    let answer := c (map a_request h ++ [req]) in
    (answer, h ++ [ {| a_step := name; a_request := req; a_answer := answer |} ]).

(** Modelled from the spec: operation Create Content Plan of the missing
    orchestrator. Research in basic mode, planning page, tracking issue,
    milestone and deadline events; no failure is fatal. *)
Definition createContentPlan (topic contentType deadline : string) (assignee : option string)
  : O WorkflowResult :=
  do! research := attempt_step "research" (Research topic "basic") in
  do! page := attempt_step "page"
      (CreatePage (page_title wd topic) (page_body wd topic (answer_text research))
                  [contentType; "automated"]) in
  do! issue := attempt_step "issue"
      (CreateIssue (issue_title wd topic) (issue_body wd (answer_reference page) assignee)) in
  do! milestone := attempt_step "milestone"
      (CreateEvent (milestone_title wd topic) (milestone_start wd deadline)
                   (event_end wd (milestone_start wd deadline))) in
  do! due := attempt_step "deadline"
      (CreateEvent (deadline_title wd topic) deadline (event_end wd deadline)) in
  oret (assemble [ outcome_of "research" research; outcome_of "page" page;
                   outcome_of "issue" issue; outcome_of "milestone" milestone;
                   outcome_of "deadline" due ]).

(** Modelled from the spec: operation Research Topic of the missing
    orchestrator. Research at the given depth, findings page, tracking
    issue; page and issue are best effort. *)
Definition researchTopic (topic depth : string) : O WorkflowResult :=
  do! research := attempt_step "research" (Research topic depth) in
  do! page := attempt_step "page"
      (CreatePage (page_title wd topic) (research_page_body wd (answer_text research))
                  ["research"; "automated"]) in
  do! issue := attempt_step "issue"
      (CreateIssue (issue_title wd topic) (issue_body wd (answer_reference page) None)) in
  oret (assemble [ outcome_of "research" research; outcome_of "page" page;
                   outcome_of "issue" issue ]).

(** Modelled from the spec: operation Publish Content of the missing
    orchestrator. A failed fetch ends the operation; a branch that exists
    counts as created; the pull request is skipped without a branch; the
    status of the page is updated last. *)
Definition publishContent (contentId repository : string) (branch : option string)
  : O WorkflowResult :=
  do! fetched := attempt_step "fetch" (GetPage contentId) in
  match fetched with
  | inl _ => oret (assemble [ outcome_of "fetch" fetched ])
  | inr page =>
      let branchName := default (derived_branch wd contentId) branch in
      do! created := attempt_step "branch" (CreateBranch branchName "main") in
      let branch_step := branch_outcome "branch" branchName created in
      do! pr_step :=
        if success branch_step
        then do! pr := attempt_step "pull-request"
                 (CreatePullRequest (pr_title wd contentId) (pr_body wd repository (text page))
                                    branchName "main") in
             oret (outcome_of "pull-request" pr)
        else oret (skipped "pull-request" "the branch was not created") in
      do! updated := attempt_step "update-status"
          (UpdatePage contentId (if success pr_step then "Review" else "Draft")) in
      oret (assemble [ outcome_of "fetch" fetched; branch_step; pr_step;
                       outcome_of "update-status" updated ])
  end.

End Operations.

(** The three composite operations, with their inputs. *)
Inductive composite :=
  | CreateContentPlan (topic contentType deadline : string) (assignee : option string)
  | ResearchTopic (topic depth : string)
  | PublishContent (contentId repository : string) (branch : option string).

Definition run (wd : Wording) (c : Connectors) (op : composite)
  : WorkflowResult * list attempt :=
  match op with
  | CreateContentPlan topic contentType deadline assignee =>
      createContentPlan wd c topic contentType deadline assignee []
  | ResearchTopic topic depth => researchTopic wd c topic depth []
  | PublishContent contentId repository branch =>
      publishContent wd c contentId repository branch []
  end.

(** What an attempted step reports: branch creation has its own rule. *)
Definition reported (a : attempt) : WorkflowStepOutcome :=
  match a_request a with
  | CreateBranch branchName _ => branch_outcome (a_step a) branchName (a_answer a)
  | _ => outcome_of (a_step a) (a_answer a)
  end.

(** The answers recorded in a list of attempts are those the connectors
    gave, each to its request after the requests before it. *)
Definition answered (c : Connectors) (attempts : list attempt) : Prop :=
  forall i a, attempts !! i = Some a ->
    a_answer a = c (map a_request (take (S i) attempts)).

End ContentWorkflowService.

(** ** Configuration values *)

(** A configuration value is absent when the variable is not set or is
    set to the empty string, present otherwise. *)
Definition absent (env : gmap string string) (name : string) : Prop :=
  env !! name = None \/ env !! name = Some EmptyString.

Definition present (env : gmap string string) (name : string) : Prop :=
  exists v, env !! name = Some v /\ v <> EmptyString.

(** [s] holds no occurrence of the character [c]. *)
Fixpoint no_char (c : ascii) (s : string) : Prop :=
  match s with
  | EmptyString => True
  | String a s' => Ascii.eqb a c = false /\ no_char c s'
  end.

(** ** The state after a vendor call *)

Definition fault_of {A} (answer : thrown + A) : option thrown :=
  match answer with inl e => Some e | inr _ => None end.

(** The state once the call [c] has been answered with [answer]. *)
Definition after_call {A} (s : state) (c : call) (answer : thrown + A) : state :=
  State (log s ++ [Entry c (fault_of answer)]) (credentials s).

(** The text of a live search, from the answer of the network call. *)
Definition live_text (rt : Runtime) (query : string) (maxResults : Z)
  (answer : thrown + ddg_data) : string :=
  match answer with
  | inr data =>
      WebSearchService.results_text query
        (WebSearchService.live_results rt query maxResults data)
  | inl _ => WebSearchService.error_search_text query
  end.

(** The five queries of a comprehensive research, as the design states them. *)
Definition comprehensive_queries (topic : string) : list string :=
  [ topic;
    topic +:+ " overview";
    topic +:+ " latest trends";
    topic +:+ " best practices";
    topic +:+ " examples" ].

(** A run of [researchTopic] that issues the searches of [queries], one
    after the other and in this order, and nothing else: it ends in the
    state the loop over [queries] ends in, it has a result for each query,
    and a live connector has sent exactly these queries over the network. *)
Definition searches_issued (rt : Runtime) (w : World) (this : WebSearchService.t)
  (args : jsval) (s : state) (queries : list string) : Prop :=
  exists results s' summary,
    WebSearchService.researchTopic rt w this args s = (Return (Content summary), s') /\
    for_each (WebSearchService.research_query rt w this) queries s = (Return results, s') /\
    map fst results = queries /\
    trace s' = trace s ++
      (if WebSearchService.enabled this then map HttpGetDuckDuckGo queries else []).

(** What the research summary holds before and after its key findings. *)
Definition summary_header (topic depth : string) (searchQueries : list string) : string :=
  "🔬 **Research Summary for: " +:+ dq +:+ topic +:+ dq +:+ "**" +:+ nl2 +:+
  "**Research Depth**: " +:+ depth +:+ nl2 +:+
  "**Search Queries Used**:" +:+ nl +:+
  join nl (map WebSearchService.bullet searchQueries) +:+ nl2 +:+
  "**Key Findings**:" +:+ nl.

Definition summary_footer : string :=
  nl2 +:+
  "**Recommendations**:" +:+ nl +:+
  "• Consider the latest trends and best practices identified" +:+ nl +:+
  "• Review multiple sources for comprehensive understanding" +:+ nl +:+
  "• Focus on practical examples and real-world applications".

(** ** Validated input and wrapped errors *)

(** The argument bag passes the validation of the operation. *)
Definition validated (rt : Runtime) (op : operation) (args : jsval) : Prop :=
  match declared_shape op with
  | Some sch => exists a, zparse rt sch (received op args) = inr a
  | None => True
  end.

(** The completion [r] is a thrown [Error] whose message is [prefix]
    followed by the message of an underlying error: one of the values
    [thrown_by_vendor], or the refresh failure of the calendar connector. *)
Definition wrapped (rt : Runtime) (prefix : string) (thrown_by_vendor : list thrown)
  (r : completion ToolResult) : Prop :=
  exists m,
    r = Throw (JsError (prefix +:+ m)) /\
    (m = GoogleCalendarService.refresh_failed \/
     exists e, e ∈ thrown_by_vendor /\ m = error_message rt e).

(** The calls of the calendar API proper. *)
Definition is_calendar_api (c : call) : bool :=
  match c with
  | GcEventsInsert _ _ _ _ _ | GcEventsList _ _ _
  | GcEventsUpdate _ _ _ _ _ | GcEventsDelete _ => true
  | _ => false
  end.

Definition is_calendar (op : operation) : bool :=
  match op with
  | calendar_createEvent | calendar_listEvents
  | calendar_updateEvent | calendar_deleteEvent => true
  | _ => false
  end.

(** ** Sample runtime, worlds and states *)

Definition rt0 : Runtime :=
  {| is_url := String.prefix "http";
     encodeURIComponent := fun s => s;
     toLocaleString := fun s => s;
     toLocaleDateString := fun s => s;
     ms_toISOString := fun ms => num ms;
     ms_toLocaleString := fun ms => num ms;
     zod_message := fun _ => "invalid arguments" |}.

Definition network_error : thrown := JsError "Network Error".

(** A world in which every vendor call fails. *)
Definition w_down : World :=
  {| gh_issues_create := fun _ => inl network_error;
     gh_git_getRef := fun _ => inl network_error;
     gh_git_createRef := fun _ => inl network_error;
     gh_pulls_create := fun _ => inl network_error;
     gh_issues_listForRepo := fun _ => inl network_error;
     gh_repos_get := fun _ => inl network_error;
     nt_pages_create := fun _ => inl network_error;
     nt_search := fun _ => inl network_error;
     nt_pages_update := fun _ => inl network_error;
     nt_blocks_children_append := fun _ => inl network_error;
     nt_pages_retrieve := fun _ => inl network_error;
     nt_blocks_children_list := fun _ => inl network_error;
     nt_databases_query := fun _ => inl network_error;
     gc_refreshAccessToken := fun _ => inl network_error;
     gc_events_insert := fun _ => inl network_error;
     gc_events_list := fun _ => inl network_error;
     gc_events_update := fun _ => inl network_error;
     gc_events_delete := fun _ => inl network_error;
     http_get_duckduckgo := fun _ => inl network_error;
     http_get_page := fun _ => inl network_error;
     date_now := fun _ => 2000%Z;
     random_below := fun _ _ => 0%Z |}.

Definition sample_item : gh_item :=
  {| gh_number := 7; gh_title := "Plan"; gh_html_url := "https://github.com/o/r/issues/7";
     gh_state := "open" |}.

Definition sample_page : nt_page :=
  {| pg_id := "p-1"; pg_parent_database_id := Some "db"; pg_title := Some "Plan";
     pg_status := Some "Draft"; pg_tags := Some ["blog"]; pg_url := "https://notion.so/p1";
     pg_last_edited_time := "2025-01-01"; pg_created_date := Some "2025-01-01" |}.

Definition sample_event : gc_event :=
  {| ev_summary := "Deadline"; ev_start := "2025-03-01T00:00:00Z";
     ev_end := "2025-03-01T01:00:00Z"; ev_description := None;
     ev_attendees := None; ev_htmlLink := "https://calendar.google.com/e/1" |}.

Definition fresh_tokens : tokens :=
  {| access_token := Some "ya29.new"; refresh_token := Some "1//r"; expiry_date := Some 9000%Z |}.

(** Tokens that expired at time 1000, with a refresh token. *)
Definition stale_tokens : tokens :=
  {| access_token := Some "ya29.old"; refresh_token := Some "1//r"; expiry_date := Some 1000%Z |}.

(** The instant answer API has nothing to say. *)
Definition empty_answer : ddg_data :=
  {| dd_AbstractText := None; dd_Heading := None; dd_AbstractURL := None;
     dd_RelatedTopics := None |}.

(** A world in which every vendor call succeeds; the clock shows 2000. *)
Definition w_up : World :=
  {| gh_issues_create := fun _ => inr sample_item;
     gh_git_getRef := fun _ => inr "abc123";
     gh_git_createRef := fun _ => inr tt;
     gh_pulls_create := fun _ => inr sample_item;
     gh_issues_listForRepo := fun _ => inr [];
     gh_repos_get := fun _ =>
       inr {| rp_full_name := "o/r"; rp_description := None; rp_stargazers_count := 1;
              rp_forks_count := 0; rp_language := None; rp_html_url := "https://github.com/o/r" |};
     nt_pages_create := fun _ => inr "p-1";
     nt_search := fun _ => inr [sample_page];
     nt_pages_update := fun _ => inr tt;
     nt_blocks_children_append := fun _ => inr tt;
     nt_pages_retrieve := fun _ => inr sample_page;
     nt_blocks_children_list := fun _ => inr [Paragraph ["intro"]];
     nt_databases_query := fun _ => inr [sample_page];
     gc_refreshAccessToken := fun _ => inr fresh_tokens;
     gc_events_insert := fun _ => inr sample_event;
     gc_events_list := fun _ => inr (Some []);
     gc_events_update := fun _ => inr sample_event;
     gc_events_delete := fun _ => inr tt;
     http_get_duckduckgo := fun _ => inr empty_answer;
     http_get_page := fun _ =>
       inr {| doc_title := "T"; doc_h1 := EmptyString; doc_texts := [];
              doc_description := None |};
     date_now := fun _ => 2000%Z;
     random_below := fun _ _ => 0%Z |}.

Definition live : WebSearchService.t := {| WebSearchService.enabled := true |}.
Definition disabled : WebSearchService.t := {| WebSearchService.enabled := false |}.

Definition sample_services : Services :=
  {| githubService := {| GitHubService.token := "t"; GitHubService.owner := "o";
                         GitHubService.repo := "r" |};
     notionService := {| NotionService.token := "t"; NotionService.databaseId := "db" |};
     calendarService := {| GoogleCalendarService.clientId := "id";
                           GoogleCalendarService.clientSecret := "secret";
                           GoogleCalendarService.redirectUri := "http://localhost/cb" |};
     webSearchService := live |}.

(** No call issued yet; the OAuth client holds no token. *)
Definition s0 : state := State [] (Some GoogleCalendarService.no_tokens).

(** No call issued yet; the OAuth client holds the stale tokens. *)
Definition s_stale : state := State [] (Some stale_tokens).

(** An OAuth client that holds the stale tokens; no call issued yet. *)
Definition stale_client : InFlight.shared :=
  {| InFlight.issued := []; InFlight.creds := Some stale_tokens |}.

(** A wording of the workflow texts, and connectors that all succeed. *)
Definition wording0 : ContentWorkflowService.Wording :=
  {| ContentWorkflowService.page_title := fun topic => "Content Plan: " +:+ topic;
     ContentWorkflowService.page_body := fun topic research => topic +:+ nl2 +:+ research;
     ContentWorkflowService.issue_title := fun topic => "Content: " +:+ topic;
     ContentWorkflowService.issue_body := fun page assignee =>
       opt_or page "no page" +:+ nl +:+ opt_or assignee "unassigned";
     ContentWorkflowService.milestone_title := fun topic => "Milestone: " +:+ topic;
     ContentWorkflowService.deadline_title := fun topic => "Deadline: " +:+ topic;
     ContentWorkflowService.milestone_start := fun deadline => deadline +:+ " - 3d";
     ContentWorkflowService.event_end := fun start => start +:+ " + 1h";
     ContentWorkflowService.research_page_body := fun research => research;
     ContentWorkflowService.derived_branch := fun contentId => "content/" +:+ contentId;
     ContentWorkflowService.pr_title := fun contentId => "Publish " +:+ contentId;
     ContentWorkflowService.pr_body := fun repository page => repository +:+ nl +:+ page |}.

Definition all_succeed : ContentWorkflowService.Connectors :=
  fun _ => inr {| ContentWorkflowService.text := "done";
                  ContentWorkflowService.reference := Some "https://example.com/1" |}.

(** ** The dispatch shell (index.ts) *)

Module Index.

(** The workflow service of index.ts. Its class is not among the
    sources: the dispatcher only hands the arguments over to it, so its
    three methods are taken as they come. *)
Record WorkflowService := {
  createContentPlan : jsval -> M ToolResult;
  publishContent : jsval -> M ToolResult;
  researchTopic : jsval -> M ToolResult }.

(** A property of the input schema of a tool: name, JSON type, default. *)
Record property := Prop_ { pname : string; ptype : string; pdefault : option jsval }.

(** An entry of the tool catalog (descriptions left out). *)
Record Tool := { name : string; properties : list property; required : list string }.

Definition tools : list Tool :=
  [ {| name := "github_create_issue";
       properties := [ Prop_ "title" "string" None; Prop_ "body" "string" None;
                       Prop_ "labels" "array" None ];
       required := ["title"; "body"] |};
    {| name := "github_create_branch";
       properties := [ Prop_ "branchName" "string" None;
                       Prop_ "baseBranch" "string" (Some (JStr "main")) ];
       required := ["branchName"] |};
    {| name := "github_create_pull_request";
       properties := [ Prop_ "title" "string" None; Prop_ "body" "string" None;
                       Prop_ "head" "string" None;
                       Prop_ "base" "string" (Some (JStr "main")) ];
       required := ["title"; "body"; "head"] |};
    {| name := "notion_create_page";
       properties := [ Prop_ "title" "string" None; Prop_ "content" "string" None;
                       Prop_ "tags" "array" None ];
       required := ["title"; "content"] |};
    {| name := "notion_search_pages";
       properties := [ Prop_ "query" "string" None; Prop_ "filter" "string" None ];
       required := ["query"] |};
    {| name := "notion_update_page";
       properties := [ Prop_ "pageId" "string" None; Prop_ "title" "string" None;
                       Prop_ "content" "string" None; Prop_ "status" "string" None ];
       required := ["pageId"] |};
    {| name := "calendar_create_event";
       properties := [ Prop_ "title" "string" None; Prop_ "description" "string" None;
                       Prop_ "startTime" "string" None; Prop_ "endTime" "string" None;
                       Prop_ "attendees" "array" None ];
       required := ["title"; "startTime"; "endTime"] |};
    {| name := "calendar_list_events";
       properties := [ Prop_ "timeMin" "string" None; Prop_ "timeMax" "string" None;
                       Prop_ "maxResults" "number" (Some (JNum 10)) ];
       required := [] |};
    {| name := "web_search";
       properties := [ Prop_ "query" "string" None;
                       Prop_ "maxResults" "number" (Some (JNum 5)) ];
       required := ["query"] |};
    {| name := "web_extract_content";
       properties := [ Prop_ "url" "string" None ];
       required := ["url"] |};
    {| name := "workflow_create_content_plan";
       properties := [ Prop_ "topic" "string" None; Prop_ "contentType" "string" None;
                       Prop_ "deadline" "string" None; Prop_ "assignee" "string" None ];
       required := ["topic"; "contentType"; "deadline"] |};
    {| name := "workflow_publish_content";
       properties := [ Prop_ "contentId" "string" None; Prop_ "repository" "string" None;
                       Prop_ "branch" "string" None ];
       required := ["contentId"; "repository"] |};
    {| name := "workflow_research_topic";
       properties := [ Prop_ "topic" "string" None;
                       Prop_ "depth" "string" (Some (JStr "comprehensive")) ];
       required := ["topic"] |} ].

(** Where the [switch (name)] of the request handler sends a call. *)
Inductive target :=
  | Connector (op : operation)
  | WorkflowCreateContentPlan
  | WorkflowPublishContent
  | WorkflowResearchTopic.

Definition route (name : string) : option target :=
  if String.eqb name "github_create_issue" then Some (Connector github_createIssue)
  else if String.eqb name "github_create_branch" then Some (Connector github_createBranch)
  else if String.eqb name "github_create_pull_request"
       then Some (Connector github_createPullRequest)
  else if String.eqb name "notion_create_page" then Some (Connector notion_createPage)
  else if String.eqb name "notion_search_pages" then Some (Connector notion_searchPages)
  else if String.eqb name "notion_update_page" then Some (Connector notion_updatePage)
  else if String.eqb name "calendar_create_event" then Some (Connector calendar_createEvent)
  else if String.eqb name "calendar_list_events" then Some (Connector calendar_listEvents)
  else if String.eqb name "web_search" then Some (Connector web_search)
  else if String.eqb name "web_extract_content" then Some (Connector web_extractContent)
  else if String.eqb name "workflow_create_content_plan" then Some WorkflowCreateContentPlan
  else if String.eqb name "workflow_publish_content" then Some WorkflowPublishContent
  else if String.eqb name "workflow_research_topic" then Some WorkflowResearchTopic
  else None.

(** The handler of a tool call: the call is routed, and whatever the
    method throws is thrown again as it is. *)
Definition callTool (rt : Runtime) (w : World) (sv : Services) (wf : WorkflowService)
  (name : string) (args : jsval) : M ToolResult :=
  try_catch
    (match route name with
     | Some (Connector op) => perform rt w sv op args
     | Some WorkflowCreateContentPlan => createContentPlan wf args
     | Some WorkflowPublishContent => publishContent wf args
     | Some WorkflowResearchTopic => researchTopic wf args
     | None => throw (JsError ("Unknown tool: " +:+ name))
     end)
    (fun error => throw error).

(** The schema field that a catalog property stands for. *)
Definition declares (p : property) (f : zfield) : bool :=
  String.eqb (pname p) (fname f) &&
  match ftype f with
  | ZString | ZUrl | ZEnum _ => String.eqb (ptype p) "string"
  | ZNumber => String.eqb (ptype p) "number"
  | ZStringArray => String.eqb (ptype p) "array"
  end.

Definition is_required (f : zfield) : bool :=
  match fmod f with ZRequired => true | _ => false end.

End Index.

(** ** The endpoints of an operation *)

(** The vendor calls an operation may issue: its own endpoints, and for
    the connectors configured with a repository or a database, on that
    repository or database only. *)
Definition may_issue (sv : Services) (op : operation) (c : call) : bool :=
  let owner := GitHubService.owner (githubService sv) in
  let repo := GitHubService.repo (githubService sv) in
  let db := NotionService.databaseId (notionService sv) in
  match op, c with
  | github_createIssue, GhIssuesCreate o r _ _ _ => String.eqb o owner && String.eqb r repo
  | github_createBranch, GhGitGetRef o r _ => String.eqb o owner && String.eqb r repo
  | github_createBranch, GhGitCreateRef o r _ _ => String.eqb o owner && String.eqb r repo
  | github_createPullRequest, GhPullsCreate o r _ _ _ _ =>
      String.eqb o owner && String.eqb r repo
  | github_listIssues, GhIssuesListForRepo o r _ _ _ =>
      String.eqb o owner && String.eqb r repo
  | github_getRepositoryInfo, GhReposGet o r => String.eqb o owner && String.eqb r repo
  | notion_createPage, NtPagesCreate d _ _ _ _ => String.eqb d db
  | notion_searchPages, NtSearch _ => true
  | notion_updatePage, NtPagesUpdate _ _ _ => true
  | notion_updatePage, NtBlocksChildrenAppend _ _ => true
  | notion_getPage, NtPagesRetrieve _ => true
  | notion_getPage, NtBlocksChildrenList _ => true
  | notion_listDatabasePages, NtDatabasesQuery d _ _ => String.eqb d db
  | calendar_createEvent, (GcRefreshAccessToken | GcEventsInsert _ _ _ _ _) => true
  | calendar_listEvents, (GcRefreshAccessToken | GcEventsList _ _ _) => true
  | calendar_updateEvent, (GcRefreshAccessToken | GcEventsUpdate _ _ _ _ _) => true
  | calendar_deleteEvent, (GcRefreshAccessToken | GcEventsDelete _) => true
  | web_search, HttpGetDuckDuckGo _ => true
  | web_extractContent, HttpGetPage _ => true
  | web_researchTopic, HttpGetDuckDuckGo _ => true
  | web_validateContent, HttpGetDuckDuckGo _ => true
  | _, _ => false
  end.

(** The most vendor calls one run of an operation issues. *)
Definition max_calls (op : operation) : nat :=
  match op with
  | github_createBranch | notion_updatePage | notion_getPage
  | calendar_createEvent | calendar_listEvents
  | calendar_updateEvent | calendar_deleteEvent => 2
  | web_researchTopic => 5
  | _ => 1
  end.

(** [needle] occurs in [hay]. *)
Definition occurs_in (needle hay : string) : Prop :=
  exists before after, hay = before +:+ needle +:+ after.

(** An environment that configures the calendar connector. *)
Definition calendar_env : gmap string string :=
  {[ "GOOGLE_CLIENT_ID" := "id"; "GOOGLE_CLIENT_SECRET" := "secret";
     "GOOGLE_REDIRECT_URI" := "http://localhost/cb" ]}.

(** The text [createEvent] returns for an event that was inserted. *)
Definition event_created_text (rt : Runtime) (data : gc_event) : string :=
  "✅ Calendar event created successfully!" +:+ nl2 +:+
  "**Event**: " +:+ ev_summary data +:+ nl2 +:+
  "**Start**: " +:+ toLocaleString rt (ev_start data) +:+ nl +:+
  "**End**: " +:+ toLocaleString rt (ev_end data) +:+ nl2 +:+
  "**Description**: " +:+ opt_or (ev_description data) "No description" +:+ nl2 +:+
  "**Attendees**: " +:+ GoogleCalendarService.render_attendees (ev_attendees data) +:+ nl2 +:+
  "**Event URL**: " +:+ ev_htmlLink data.

Definition is_insert (c : call) : bool :=
  match c with GcEventsInsert _ _ _ _ _ => true | _ => false end.

(** The text [extractContent] returns for a page it has fetched. *)
Definition content_extraction_text (url title description content : string) : string :=
  "📄 **Content Extraction from: " +:+ url +:+ "**" +:+ nl2 +:+
  "**Title**: " +:+ title +:+ nl2 +:+
  "**Description**: " +:+ description +:+ nl2 +:+
  "**Content**:" +:+ nl +:+
  str_or content "No content could be extracted from this page." +:+ nl2 +:+
  "**Word Count**: " +:+
  num (Z.of_nat (length (split_char " "%char content))) +:+ " words".

(** The default a schema field declares, if any. *)
Definition default_of (f : zfield) : option jsval :=
  match fmod f with ZDefault d => Some d | _ => None end.

(** The calls that change or remove a calendar event. *)
Definition alters_event (c : call) : bool :=
  match c with
  | GcEventsUpdate _ _ _ _ _ | GcEventsDelete _ => true
  | _ => false
  end.

Definition is_web (op : operation) : bool :=
  match op with
  | web_search | web_extractContent | web_researchTopic | web_validateContent => true
  | _ => false
  end.

(** The world [w] in which the workspace search of Notion also finds a
    page that lies outside the configured database. *)
Definition foreign_page : nt_page :=
  {| pg_id := "p-9"; pg_parent_database_id := Some "elsewhere"; pg_title := Some "Diary";
     pg_status := None; pg_tags := None; pg_url := "https://notion.so/p9";
     pg_last_edited_time := "2025-02-02"; pg_created_date := None |}.

Definition w_shared : World :=
  {| gh_issues_create := gh_issues_create w_up;
     gh_git_getRef := gh_git_getRef w_up;
     gh_git_createRef := gh_git_createRef w_up;
     gh_pulls_create := gh_pulls_create w_up;
     gh_issues_listForRepo := gh_issues_listForRepo w_up;
     gh_repos_get := gh_repos_get w_up;
     nt_pages_create := nt_pages_create w_up;
     nt_search := fun _ => inr [foreign_page; sample_page];
     nt_pages_update := nt_pages_update w_up;
     nt_blocks_children_append := nt_blocks_children_append w_up;
     nt_pages_retrieve := nt_pages_retrieve w_up;
     nt_blocks_children_list := nt_blocks_children_list w_up;
     nt_databases_query := nt_databases_query w_up;
     gc_refreshAccessToken := gc_refreshAccessToken w_up;
     gc_events_insert := gc_events_insert w_up;
     gc_events_list := gc_events_list w_up;
     gc_events_update := gc_events_update w_up;
     gc_events_delete := gc_events_delete w_up;
     http_get_duckduckgo := http_get_duckduckgo w_up;
     http_get_page := http_get_page w_up;
     date_now := date_now w_up;
     random_below := random_below w_up |}.

(** The text [validateContent] returns when its search has returned. *)
Definition validation_text (topic : string) (accuracy completeness relevance : Z)
  (sources : string) : string :=
  "✅ **Content Validation Results**" +:+ nl2 +:+
  "**Topic**: " +:+ topic +:+ nl2 +:+
  "**Validation Scores**:" +:+ nl +:+
  "• Accuracy: " +:+ num accuracy +:+ "%" +:+ nl +:+
  "• Completeness: " +:+ num completeness +:+ "%" +:+ nl +:+
  "• Relevance: " +:+ num relevance +:+ "%" +:+ nl2 +:+
  "**Authoritative Sources**:" +:+ nl +:+ sources +:+ nl2 +:+
  "**Recommendations**:" +:+ nl +:+
  "• " +:+ WebSearchService.recommendation accuracy
            "Consider fact-checking with additional sources" "Content appears accurate" +:+ nl +:+
  "• " +:+ WebSearchService.recommendation completeness
            "Add more details to improve completeness" "Content is comprehensive" +:+ nl +:+
  "• " +:+ WebSearchService.recommendation relevance
            "Ensure content directly addresses the topic" "Content is highly relevant".

(** The optional string properties that an operation reads only through
    a truth test ([if (x)], [x || d], [x ? a : b]), or not at all. *)
Definition read_by_truthiness (op : operation) : list string :=
  match op with
  | github_listIssues => ["labels"]
  | notion_searchPages => ["filter"]
  | notion_updatePage => ["title"; "content"]
  | notion_listDatabasePages => ["status"]
  | calendar_createEvent => ["description"]
  | calendar_listEvents => ["timeMin"; "timeMax"]
  | calendar_updateEvent => ["title"; "description"; "startTime"; "endTime"]
  | _ => []
  end.

(** * Properties *)

Lemma env_missing_absent (env : gmap string string) (name : string) :
  env_missing (env !! name) = true <-> absent env name.
Proof.
  unfold absent. destruct (env !! name) as [[|a v]|]; simpl;
    split; intros H; try done; auto; destruct H as [H|H]; discriminate.
Qed.

Lemma env_missing_present (env : gmap string string) (name : string) :
  env_missing (env !! name) = false <-> present env name.
Proof.
  unfold present. destruct (env !! name) as [[|a v]|]; simpl;
    split; intros H; try done.
  - destruct H as (v & [= <-] & Hv). done.
  - eexists; split; [done | discriminate].
  - destruct H as (v & H & _). discriminate.
Qed.

Lemma github_constructor_cases (env : gmap string string) :
  ((absent env "GITHUB_TOKEN" \/ absent env "GITHUB_OWNER" \/ absent env "GITHUB_REPO")
     <-> GitHubService.constructor env = inl (JsError GitHubService.config_missing)) /\
  ((present env "GITHUB_TOKEN" /\ present env "GITHUB_OWNER" /\ present env "GITHUB_REPO")
     <-> exists svc, GitHubService.constructor env = inr svc).
Proof.
  unfold GitHubService.constructor.
  rewrite <- !env_missing_absent, <- !env_missing_present.
  destruct (env_missing (env !! "GITHUB_TOKEN")),
    (env_missing (env !! "GITHUB_OWNER")),
    (env_missing (env !! "GITHUB_REPO")); simpl;
    (split; split; intros H; try done; try (destruct H; discriminate);
     intuition (eauto; congruence)).
Qed.

Lemma notion_constructor_cases (env : gmap string string) :
  ((absent env "NOTION_TOKEN" \/ absent env "NOTION_DATABASE_ID")
     <-> NotionService.constructor env = inl (JsError NotionService.config_missing)) /\
  ((present env "NOTION_TOKEN" /\ present env "NOTION_DATABASE_ID")
     <-> exists svc, NotionService.constructor env = inr svc).
Proof.
  unfold NotionService.constructor.
  rewrite <- !env_missing_absent, <- !env_missing_present.
  destruct (env_missing (env !! "NOTION_TOKEN")),
    (env_missing (env !! "NOTION_DATABASE_ID")); simpl;
    (split; split; intros H; try done; try (destruct H; discriminate);
     intuition (eauto; congruence)).
Qed.

Lemma calendar_constructor_cases
  (env : gmap string string) (primary fallback : GoogleCalendarService.token_file) :
  ((absent env "GOOGLE_CLIENT_ID" \/ absent env "GOOGLE_CLIENT_SECRET"
      \/ absent env "GOOGLE_REDIRECT_URI")
     <-> GoogleCalendarService.constructor env primary fallback
         = inl (JsError GoogleCalendarService.config_missing)) /\
  ((present env "GOOGLE_CLIENT_ID" /\ present env "GOOGLE_CLIENT_SECRET"
      /\ present env "GOOGLE_REDIRECT_URI")
     <-> exists svc, GoogleCalendarService.constructor env primary fallback = inr svc).
Proof.
  unfold GoogleCalendarService.constructor.
  rewrite <- !env_missing_absent, <- !env_missing_present.
  destruct (env_missing (env !! "GOOGLE_CLIENT_ID")),
    (env_missing (env !! "GOOGLE_CLIENT_SECRET")),
    (env_missing (env !! "GOOGLE_REDIRECT_URI")); simpl;
    (split; split; intros H; try done; try (destruct H; discriminate);
     intuition (eauto; congruence)).
Qed.

(** C7. Each connector's constructor throws its configuration error
    exactly when one of its required configuration values is absent
    (GitHub: token, owner, repository; Notion: token, database id; Google
    Calendar: client id, client secret, redirect URI), and returns a
    connector exactly when all of them are present, whatever the token
    file holds: the failure surfaces at construction. *)
Theorem constructors_fail_fast
  (env : gmap string string) (primary fallback : GoogleCalendarService.token_file) :
  ((absent env "GITHUB_TOKEN" \/ absent env "GITHUB_OWNER" \/ absent env "GITHUB_REPO")
     <-> GitHubService.constructor env = inl (JsError GitHubService.config_missing)) /\
  ((present env "GITHUB_TOKEN" /\ present env "GITHUB_OWNER" /\ present env "GITHUB_REPO")
     <-> exists svc, GitHubService.constructor env = inr svc) /\
  ((absent env "NOTION_TOKEN" \/ absent env "NOTION_DATABASE_ID")
     <-> NotionService.constructor env = inl (JsError NotionService.config_missing)) /\
  ((present env "NOTION_TOKEN" /\ present env "NOTION_DATABASE_ID")
     <-> exists svc, NotionService.constructor env = inr svc) /\
  ((absent env "GOOGLE_CLIENT_ID" \/ absent env "GOOGLE_CLIENT_SECRET"
      \/ absent env "GOOGLE_REDIRECT_URI")
     <-> GoogleCalendarService.constructor env primary fallback
         = inl (JsError GoogleCalendarService.config_missing)) /\
  ((present env "GOOGLE_CLIENT_ID" /\ present env "GOOGLE_CLIENT_SECRET"
      /\ present env "GOOGLE_REDIRECT_URI")
     <-> exists svc, GoogleCalendarService.constructor env primary fallback = inr svc).
Proof.
  pose proof (github_constructor_cases env) as [? ?].
  pose proof (notion_constructor_cases env) as [? ?].
  pose proof (calendar_constructor_cases env primary fallback) as [? ?].
  repeat split; tauto.
Qed.

(** ** Validation *)

Lemma str_in_In (s : string) (l : list string) : str_in s l = true <-> In s l.
Proof.
  unfold str_in. rewrite existsb_exists. split.
  - intros (x & Hx & E). apply String.eqb_eq in E. by subst.
  - intros H. exists s. split; [done | apply String.eqb_refl].
Qed.

Lemma all_strings (l : list jsval) :
  forallb is_str l = true <-> exists l', l = map JStr l'.
Proof.
  induction l as [|v l IH]; simpl.
  - split; [by exists [] | done].
  - rewrite andb_true_iff, IH. split.
    + intros [Hv [l' ->]]. destruct v; try discriminate. by exists (s :: l').
    + intros [[|x l'] E]; [discriminate|]. simpl in E. injection E as -> ->.
      split; [done | by exists l'].
Qed.

Lemma zcheck_has_type (rt : Runtime) (t : ztype) (v : jsval) :
  zcheck rt t v = None <-> has_type rt t v.
Proof.
  destruct t; simpl.
  - destruct v; split; intros H; try done; try (destruct H; discriminate). by eexists.
  - destruct v; try (split; [done | intros [? [? _]]; discriminate]).
    destruct (is_url rt s) eqn:E; split; intros H; try done.
    + eauto.
    + destruct H as (s' & [= <-] & H). congruence.
  - destruct v; split; intros H; try done; try (destruct H; discriminate). by eexists.
  - destruct v; try (split; [done | intros [? [? _]]; discriminate]).
    destruct (str_in s values) eqn:E; split; intros H; try done.
    + exists s. split; [done | by apply str_in_In].
    + destruct H as (s' & [= <-] & H). apply str_in_In in H. congruence.
  - destruct v; try (split; [done | intros [? ?]; discriminate]).
    destruct (forallb is_str items) eqn:E; split; intros H; try done.
    + apply all_strings in E as [l' ->]. by exists l'.
    + destruct H as (l' & [= ->]).
      assert (forallb is_str (map JStr l') = true) by (apply all_strings; eauto).
      congruence.
Qed.

Lemma undefined_has_no_type (rt : Runtime) (t : ztype) : ~ has_type rt t JUndefined.
Proof. rewrite <- zcheck_has_type. by destruct t. Qed.

Lemma checked_has_type (rt : Runtime) (f : zfield) (v : jsval) :
  (exists x, match zcheck rt (ftype f) v with
             | None => inr v
             | Some c => inl (Issue (fname f) c)
             end = (inr x : zissue + jsval)) <-> has_type rt (ftype f) v.
Proof.
  rewrite <- zcheck_has_type.
  destruct (zcheck rt (ftype f) v); split; intros H; try done; eauto.
  destruct H; discriminate.
Qed.

Lemma zparse_field_conforms (rt : Runtime) (f : zfield) (o : list (string * jsval)) :
  (exists v, zparse_field rt f o = inr v) <-> field_conforms rt o f.
Proof.
  unfold zparse_field, field_conforms.
  pose proof (undefined_has_no_type rt (ftype f)) as Hu.
  destruct (obj_get (fname f) o) eqn:V.
  1: destruct (fmod f) eqn:Mo.
  2, 3: split; [intros _; left; done | eauto].
  all: try destruct (fmod f); rewrite checked_has_type;
    (split; [intros H; by right | intros [[H1 H2]|H]; done]).
Qed.

Lemma zparse_fields_conforms (rt : Runtime) (sch : zschema) (o : list (string * jsval)) :
  (zparse_fields rt sch o).1 = [] <-> Forall (field_conforms rt o) sch.
Proof.
  induction sch as [|f sch IH]; simpl.
  - split; [constructor | done].
  - rewrite Forall_cons, <- IH, <- zparse_field_conforms.
    destruct (zparse_fields rt sch o) as [issues out]; simpl.
    destruct (zparse_field rt f o) as [i|v]; simpl; split.
    + discriminate.
    + intros [[? ?] _]. discriminate.
    + eauto.
    + tauto.
Qed.

Lemma zparse_conforms (rt : Runtime) (sch : zschema) (args : jsval) :
  (exists out, zparse rt sch args = inr out) <-> conforms rt sch args.
Proof.
  unfold zparse, conforms. destruct args;
    try (split; [intros [? ?]; discriminate | intros (o & ? & _); discriminate]).
  pose proof (zparse_fields_conforms rt sch fields) as H.
  destruct (zparse_fields rt sch fields) as [[|i issues] out]; simpl in H; split.
  - intros _. exists fields. split; [done | by apply H].
  - eauto.
  - intros [? ?]. discriminate.
  - intros (o & [= <-] & HF). apply H in HF. discriminate.
Qed.

Lemma zparse_issues (rt : Runtime) (sch : zschema) (args : jsval) (issues : list zissue) :
  zparse rt sch args = inl issues -> issues <> [].
Proof.
  unfold zparse. destruct args; try (intros [= <-]; done).
  destruct (zparse_fields rt sch fields) as [[|i rest] out]; intros [= <-]; done.
Qed.

Lemma parse_args_rejects (rt : Runtime) (sch : zschema) (args : jsval)
  (issues : list zissue) (B : Type) (k : list (string * jsval) -> M B) (s : state) :
  zparse rt sch args = inl issues ->
  bind (parse_args rt sch args) k s = (Throw (ZodError issues), s).
Proof. intros H. unfold bind, parse_args. by rewrite H. Qed.

(** C8. For every public operation of a connector that declares a shape
    for its argument bag: if the bag does not conform to it (it is not
    an object, a required field is missing, a field has the wrong type or
    a value is outside the declared enumeration), the operation throws
    the validation error of the schema, with at least one issue, and the
    state is the one before the call: no vendor call has been issued. *)
Theorem invalid_arguments_rejected
  (rt : Runtime) (w : World) (sv : Services) (op : operation) (sch : zschema)
  (args : jsval) (s : state) :
  declared_shape op = Some sch ->
  ~ conforms rt sch (received op args) ->
  exists issues,
    issues <> [] /\
    zparse rt sch (received op args) = inl issues /\
    perform rt w sv op args s = (Throw (ZodError issues), s).
Proof.
  intros Hshape Hbad.
  destruct (zparse rt sch (received op args)) as [issues|out] eqn:E.
  2: { exfalso. apply Hbad. apply zparse_conforms. eauto. }
  exists issues. split; [by eapply zparse_issues|]. split; [done|].
  destruct op; simpl in Hshape; try discriminate;
    injection Hshape as <-; simpl in E |- *;
    by apply parse_args_rejects.
Qed.

Lemma invalid_arguments_rejected_witness :
  exists issues,
    issues <> [] /\
    zparse rt0 GitHubService.createIssue_schema
      (received github_createIssue (JObj [("title", JNum 3)])) = inl issues /\
    perform rt0 w_up sample_services github_createIssue (JObj [("title", JNum 3)]) s0
    = (Throw (ZodError issues), s0).
Proof.
  apply (invalid_arguments_rejected rt0 w_up sample_services github_createIssue
           GitHubService.createIssue_schema (JObj [("title", JNum 3)]) s0).
  - reflexivity.
  - rewrite <- zparse_conforms. intros [out H]. vm_compute in H. discriminate.
Defined.

(** ** Splitting and joining lines *)

Lemma split_char_nonempty (c : ascii) (s : string) : split_char c s <> [].
Proof.
  induction s as [|a s IH]; simpl; [done|].
  destruct (Ascii.eqb a c); [done|]. by destruct (split_char c s).
Qed.

Lemma split_char_pieces (c : ascii) (s : string) : Forall (no_char c) (split_char c s).
Proof.
  induction s as [|a s IH]; simpl.
  - by repeat constructor.
  - destruct (Ascii.eqb a c) eqn:E.
    + by constructor.
    + destruct (split_char c s) as [|x l]; [by repeat constructor|].
      inversion IH; subst. by constructor.
Qed.

Lemma split_char_single (c : ascii) (x : string) :
  no_char c x -> split_char c x = [x].
Proof.
  induction x as [|a x IH]; simpl; [done|].
  intros [-> Hx]. by rewrite IH.
Qed.

Lemma split_char_app (c : ascii) (x rest : string) :
  no_char c x -> split_char c (x +:+ String c rest) = x :: split_char c rest.
Proof.
  induction x as [|a x IH]; simpl.
  - intros _. by rewrite Ascii.eqb_refl.
  - intros [-> Hx]. by rewrite IH.
Qed.

Lemma split_char_join (c : ascii) (x : string) (l : list string) :
  Forall (no_char c) (x :: l) ->
  split_char c (join (String c EmptyString) (x :: l)) = x :: l.
Proof.
  revert x. induction l as [|y l IH]; intros x H; inversion H as [|? ? Hx Hl]; subst.
  - simpl. by apply split_char_single.
  - change (join (String c EmptyString) (x :: y :: l))
      with (x +:+ String c (join (String c EmptyString) (y :: l))).
    rewrite split_char_app by done. by rewrite IH.
Qed.

Lemma lines_first_five (s : string) :
  lines (WebSearchService.first_five_lines s) = take 5 (lines s).
Proof.
  unfold WebSearchService.first_five_lines, lines, slice0. simpl.
  pose proof (split_char_nonempty "010"%char s) as Hne.
  pose proof (split_char_pieces "010"%char s) as Hp.
  destruct (split_char "010"%char s) as [|x l]; [done|].
  change (firstn 5 (x :: l)) with (x :: firstn 4 l).
  apply split_char_join. inversion Hp; subst. constructor; [done|].
  by apply Forall_take.
Qed.

(** ** Vendor calls and the log *)

Lemma invoke_eq {A} (c : call) (answer : list call -> thrown + A) (s : state) :
  invoke c answer s =
  (match answer (trace s ++ [c]) with inl e => Throw e | inr a => Return a end,
   after_call s c (answer (trace s ++ [c]))).
Proof. unfold invoke, after_call. by destruct (answer (trace s ++ [c])). Qed.

Lemma trace_after_call {A} (s : state) (c : call) (answer : thrown + A) :
  trace (after_call s c answer) = trace s ++ [c].
Proof. unfold trace, after_call. simpl. by rewrite map_app. Qed.

Lemma credentials_after_call {A} (s : state) (c : call) (answer : thrown + A) :
  credentials (after_call s c answer) = credentials s.
Proof. done. Qed.

(** ** WebSearchService.search *)

Lemma search_validated (rt : Runtime) (w : World) (this : WebSearchService.t)
  (args : jsval) (a : list (string * jsval)) (s : state) :
  zparse rt WebSearchService.search_schema args = inr a ->
  let query := str_of (obj_get "query" a) in
  let maxResults := num_of (obj_get "maxResults" a) in
  let answer := http_get_duckduckgo w (trace s ++ [HttpGetDuckDuckGo query]) in
  WebSearchService.search rt w this args s =
  if WebSearchService.enabled this
  then (Return (Content (live_text rt query maxResults answer)),
        after_call s (HttpGetDuckDuckGo query) answer)
  else (Return (Content (WebSearchService.mock_search_text query)), s).
Proof.
  intros H. unfold WebSearchService.search, parse_args, bind. rewrite H. simpl.
  destruct (WebSearchService.enabled this); simpl; [|done].
  unfold try_catch. rewrite invoke_eq.
  by destruct (http_get_duckduckgo w _).
Qed.

Lemma research_query_eq (rt : Runtime) (w : World) (this : WebSearchService.t)
  (query : string) (s : state) :
  let answer := http_get_duckduckgo w (trace s ++ [HttpGetDuckDuckGo query]) in
  WebSearchService.research_query rt w this query s =
  if WebSearchService.enabled this
  then (Return (query, live_text rt query 3 answer),
        after_call s (HttpGetDuckDuckGo query) answer)
  else (Return (query, WebSearchService.mock_search_text query), s).
Proof.
  unfold WebSearchService.research_query, bind.
  rewrite (search_validated rt w this _ [("query", JStr query); ("maxResults", JNum 3)])
    by done.
  simpl. by destruct (WebSearchService.enabled this).
Qed.

(** The loop of [researchTopic] runs one search per query, in order, and
    never throws. *)
Lemma research_loop (rt : Runtime) (w : World) (this : WebSearchService.t)
  (queries : list string) (s : state) :
  exists results s',
    for_each (WebSearchService.research_query rt w this) queries s = (Return results, s') /\
    map fst results = queries /\
    trace s' = trace s ++
      (if WebSearchService.enabled this then map HttpGetDuckDuckGo queries else []) /\
    credentials s' = credentials s.
Proof.
  revert s. induction queries as [|q queries IH]; intros s; simpl.
  - exists [], s. repeat split; try done. destruct (WebSearchService.enabled this);
      by rewrite app_nil_r.
  - unfold bind at 1. rewrite research_query_eq.
    destruct (WebSearchService.enabled this) eqn:En.
    + destruct (IH (after_call s (HttpGetDuckDuckGo q)
                      (http_get_duckduckgo w (trace s ++ [HttpGetDuckDuckGo q]))))
        as (results & s' & Hrun & Hq & Ht & Hc).
      unfold bind. rewrite Hrun. simpl. eexists _, s'. split; [done|].
      simpl. rewrite Hq, Ht, trace_after_call, <- app_assoc. done.
    + destruct (IH s) as (results & s' & Hrun & Hq & Ht & Hc).
      unfold bind. rewrite Hrun. simpl. eexists _, s'. split; [done|].
      simpl. by rewrite Hq, Ht.
Qed.

Lemma researchTopic_validated (rt : Runtime) (w : World) (this : WebSearchService.t)
  (args : jsval) (a : list (string * jsval)) (s : state) :
  zparse rt WebSearchService.researchTopic_schema args = inr a ->
  let topic := str_of (obj_get "topic" a) in
  let depth := str_of (obj_get "depth" a) in
  let queries := WebSearchService.searchQueries topic depth in
  exists results s',
    for_each (WebSearchService.research_query rt w this) queries s = (Return results, s') /\
    WebSearchService.researchTopic rt w this args s =
      (Return (Content (WebSearchService.research_summary topic depth queries results)), s').
Proof.
  intros H topic depth queries.
  destruct (research_loop rt w this queries s) as (results & s' & Hrun & _).
  exists results, s'. split; [done|].
  unfold WebSearchService.researchTopic, parse_args, bind at 1. rewrite H. simpl.
  unfold try_catch, bind. fold topic depth queries. by rewrite Hrun.
Qed.

(** ** WebSearchService.researchTopic *)

Lemma researchTopic_parse (rt : Runtime) (o : list (string * jsval)) (topic depth : string) :
  obj_get "topic" o = JStr topic ->
  obj_get "depth" o = JStr depth ->
  str_in depth ["basic"; "comprehensive"] = true ->
  zparse rt WebSearchService.researchTopic_schema (JObj o)
  = inr [("topic", JStr topic); ("depth", JStr depth)].
Proof.
  intros Ht Hd Hin. unfold zparse. simpl. unfold zparse_field. simpl.
  rewrite Ht, Hd. unfold str_in in Hin. simpl in Hin |- *. by rewrite Hin.
Qed.

Lemma researchTopic_parse_default (rt : Runtime) (o : list (string * jsval)) (topic : string) :
  obj_get "topic" o = JStr topic ->
  obj_get "depth" o = JUndefined ->
  zparse rt WebSearchService.researchTopic_schema (JObj o)
  = inr [("topic", JStr topic); ("depth", JStr "comprehensive")].
Proof.
  intros Ht Hd. unfold zparse. simpl. unfold zparse_field. simpl.
  by rewrite Ht, Hd.
Qed.

Lemma researchTopic_issues (rt : Runtime) (w : World) (this : WebSearchService.t)
  (args : jsval) (topic depth : string) (s : state) :
  zparse rt WebSearchService.researchTopic_schema args
  = inr [("topic", JStr topic); ("depth", JStr depth)] ->
  searches_issued rt w this args s (WebSearchService.searchQueries topic depth).
Proof.
  intros H.
  destruct (researchTopic_validated rt w this args _ s H) as (results & s' & Hrun & Hres).
  destruct (research_loop rt w this (WebSearchService.searchQueries topic depth) s)
    as (results' & s'' & Hrun' & Hq & Ht & _).
  simpl in Hrun, Hres. rewrite Hrun in Hrun'. injection Hrun' as <- <-.
  exists results, s'. eexists. repeat split; eauto.
Qed.

(** C2. For every topic string, the research operation with depth
    [basic] issues exactly one search, for the bare topic; with depth
    [comprehensive], which is also the depth taken when none is given, it
    issues exactly five, in the order: the bare topic, then the topic
    followed by overview, latest trends, best practices and examples. *)
Theorem research_issues_fixed_queries
  (rt : Runtime) (w : World) (this : WebSearchService.t)
  (o : list (string * jsval)) (topic : string) (s : state) :
  obj_get "topic" o = JStr topic ->
  (obj_get "depth" o = JStr "basic" ->
     searches_issued rt w this (JObj o) s [topic]) /\
  (obj_get "depth" o = JStr "comprehensive" \/ obj_get "depth" o = JUndefined ->
     searches_issued rt w this (JObj o) s (comprehensive_queries topic)).
Proof.
  intros Ht. split.
  - intros Hd.
    apply (researchTopic_issues rt w this (JObj o) topic "basic" s).
    by apply researchTopic_parse.
  - intros Hd.
    apply (researchTopic_issues rt w this (JObj o) topic "comprehensive" s).
    destruct Hd as [Hd|Hd].
    + by apply researchTopic_parse.
    + by apply researchTopic_parse_default.
Qed.

Lemma research_issues_fixed_queries_witness :
  searches_issued rt0 w_up live
    (JObj [("topic", JStr "rust"); ("depth", JStr "basic")]) s0 ["rust"] /\
  searches_issued rt0 w_up live (JObj [("topic", JStr "rust")]) s0
    (comprehensive_queries "rust").
Proof.
  split.
  - apply (research_issues_fixed_queries rt0 w_up live
             [("topic", JStr "rust"); ("depth", JStr "basic")] "rust" s0);
      reflexivity.
  - apply (research_issues_fixed_queries rt0 w_up live [("topic", JStr "rust")] "rust" s0);
      [reflexivity | right; reflexivity].
Defined.

Lemma append_assoc (a b c : string) : (a +:+ b) +:+ c = a +:+ (b +:+ c).
Proof.
  induction a as [|x a IH]; [done|].
  change (String x ((a +:+ b) +:+ c) = String x (a +:+ (b +:+ c))).
  by rewrite IH.
Qed.

Lemma research_summary_shape (topic depth : string) (queries : list string)
  (results : list (string * string)) :
  WebSearchService.research_summary topic depth queries results
  = summary_header topic depth queries
    +:+ join nl2 (map WebSearchService.finding results) +:+ summary_footer.
Proof.
  unfold WebSearchService.research_summary, summary_header, summary_footer.
  rewrite !append_assoc. reflexivity.
Qed.



(** ** The mode of WebSearchService *)

Lemma slice0_prefix {A} (e : Z) (l : list A) : slice0 e l `prefix_of` l.
Proof. unfold slice0. destruct (e <? 0)%Z; apply prefix_take. Qed.

Lemma live_text_not_placeholder (rt : Runtime) (query : string) (maxResults : Z)
  (answer : thrown + ddg_data) :
  live_text rt query maxResults answer <> WebSearchService.mock_search_text query.
Proof.
  unfold live_text, WebSearchService.results_text, WebSearchService.error_search_text,
    WebSearchService.mock_search_text.
  destruct answer; intros H; vm_compute in H; discriminate.
Qed.




(** ** Failing vendor calls *)

Lemma faults_after_call {A} (s : state) (c : call) (answer : thrown + A) :
  faults (after_call s c answer)
  = faults s ++ match answer with inl e => [e] | inr _ => [] end.
Proof.
  unfold faults, after_call. simpl. rewrite omap_app. by destruct answer.
Qed.

Lemma faults_grew (l : list thrown) (e : thrown) : l ++ [e] <> l.
Proof.
  intros H. apply (f_equal length) in H. rewrite length_app in H. simpl in H. lia.
Qed.

Lemma try_invoke_eq {A B} (c : call) (answer : list call -> thrown + A)
  (k : A -> M B) (h : thrown -> M B) (s : state) :
  try_catch (bind (invoke c answer) k) h s =
  match answer (trace s ++ [c]) with
  | inl e => h e (after_call s c (answer (trace s ++ [c])))
  | inr a => try_catch (k a) h (after_call s c (answer (trace s ++ [c])))
  end.
Proof.
  unfold try_catch, bind. rewrite invoke_eq. by destruct (answer (trace s ++ [c])).
Qed.

Lemma parse_args_accepts (rt : Runtime) (sch : zschema) (args : jsval)
  (a : list (string * jsval)) (B : Type) (k : list (string * jsval) -> M B) (s : state) :
  zparse rt sch args = inr a ->
  bind (parse_args rt sch args) k s = k a s.
Proof. intros H. unfold bind, parse_args. by rewrite H. Qed.

Lemma ensureAuthenticated_eq (w : World) (s : state) :
  GoogleCalendarService.ensureAuthenticated w s =
  if GoogleCalendarService.no_access_token (credentials s)
  then (Throw (JsError GoogleCalendarService.auth_required), s)
  else if GoogleCalendarService.expired (credentials s) (date_now w (trace s))
       then match gc_refreshAccessToken w (trace s ++ [GcRefreshAccessToken]) with
            | inl e => (Throw (JsError GoogleCalendarService.refresh_failed),
                        after_call s GcRefreshAccessToken (inl e : thrown + tokens))
            | inr fresh =>
                (Return tt, State (log s ++ [Entry GcRefreshAccessToken None]) (Some fresh))
            end
       else (Return tt, s).
Proof.
  unfold GoogleCalendarService.ensureAuthenticated.
  unfold bind at 1. unfold get_credentials.
  destruct (GoogleCalendarService.no_access_token (credentials s)); [done|].
  unfold bind at 1. unfold get_trace.
  destruct (GoogleCalendarService.expired (credentials s) (date_now w (trace s))); [|done].
  rewrite try_invoke_eq.
  by destruct (gc_refreshAccessToken w (trace s ++ [GcRefreshAccessToken])).
Qed.

Lemma try_ensure_eq {B} (w : World) (k : unit -> M B) (h : thrown -> M B) (s : state) :
  try_catch (bind (GoogleCalendarService.ensureAuthenticated w) k) h s =
  if GoogleCalendarService.no_access_token (credentials s)
  then h (JsError GoogleCalendarService.auth_required) s
  else if GoogleCalendarService.expired (credentials s) (date_now w (trace s))
       then match gc_refreshAccessToken w (trace s ++ [GcRefreshAccessToken]) with
            | inl e => h (JsError GoogleCalendarService.refresh_failed)
                         (after_call s GcRefreshAccessToken (inl e : thrown + tokens))
            | inr fresh =>
                try_catch (k tt) h
                  (State (log s ++ [Entry GcRefreshAccessToken None]) (Some fresh))
            end
       else try_catch (k tt) h s.
Proof.
  unfold try_catch, bind. rewrite ensureAuthenticated_eq.
  destruct (GoogleCalendarService.no_access_token (credentials s)); [done|].
  destruct (GoogleCalendarService.expired (credentials s) (date_now w (trace s))); [|done].
  by destruct (gc_refreshAccessToken w (trace s ++ [GcRefreshAccessToken])).
Qed.

Lemma try_get_trace {B} (k : list call -> M B) (h : thrown -> M B) (s : state) :
  try_catch (bind get_trace k) h s = try_catch (k (trace s)) h s.
Proof. done. Qed.

Lemma try_ret {A B} (a : A) (k : A -> M B) (h : thrown -> M B) (s : state) :
  try_catch (bind (ret a) k) h s = try_catch (k a) h s.
Proof. done. Qed.

Lemma refresh_failed_not_authentication (rt : Runtime) :
  GoogleCalendarService.is_authentication_error rt
    (JsError GoogleCalendarService.refresh_failed) = false.
Proof. vm_compute. reflexivity. Qed.

Ltac enter H :=
  cbv beta iota delta [perform
    GitHubService.createIssue GitHubService.createBranch GitHubService.createPullRequest
    GitHubService.listIssues GitHubService.getRepositoryInfo
    NotionService.createPage NotionService.searchPages NotionService.updatePage
    NotionService.getPage NotionService.listDatabasePages
    GoogleCalendarService.createEvent GoogleCalendarService.listEvents
    GoogleCalendarService.updateEvent GoogleCalendarService.deleteEvent
    WebSearchService.extractContent];
  try rewrite (parse_args_accepts _ _ _ _ _ _ _ H).

Ltac answer_cases :=
  match goal with
  | |- context [after_call _ _ ?ans] =>
      lazymatch ans with
      | inl _ => fail
      | inr _ => fail
      | _ => destruct ans as [?e|?x] eqn:?
      end
  end.

(** Run the calls of a method one after the other, by cases on what the
    vendor answers. *)
Ltac run_calls :=
  repeat first
    [ rewrite try_get_trace
    | rewrite try_ret
    | rewrite try_invoke_eq; answer_cases
    | rewrite try_ensure_eq;
      destruct (GoogleCalendarService.no_access_token _) eqn:?;
      [| destruct (GoogleCalendarService.expired _ _) eqn:?;
         [destruct (gc_refreshAccessToken _ _) eqn:?|] ]
    | match goal with
      | |- context [if truthy ?v then invoke _ _ else _] => destruct (truthy v) eqn:?
      | |- context [if GoogleCalendarService.is_authentication_error ?rt ?e then _ else _] =>
          first [ rewrite (refresh_failed_not_authentication rt)
                | destruct (GoogleCalendarService.is_authentication_error rt e) eqn:? ]
      end ].

Ltac settle :=
  unfold try_catch, throw, ret, bind, get_trace;
  unfold faults, after_call; simpl; rewrite ?omap_app, ?app_nil_r; simpl;
  rewrite ?app_nil_r.

Ltac is_wrapped :=
  eexists; split;
  [ reflexivity
  | first [ left; reflexivity
          | right; eexists; split; [|reflexivity]; set_solver ] ].

Lemma search_returns (rt : Runtime) (w : World) (this : WebSearchService.t)
  (args : jsval) (a : list (string * jsval)) (s : state) :
  zparse rt WebSearchService.search_schema args = inr a ->
  exists t s', WebSearchService.search rt w this args s = (Return (Content t), s').
Proof.
  intros H. rewrite (search_validated rt w this args a s H).
  destruct (WebSearchService.enabled this); eauto.
Qed.





(** ** The token lifecycle of the calendar connector *)

Lemma has_access_token (creds : option tokens) (tk : tokens) (token : string) :
  creds = Some tk -> access_token tk = Some token -> token <> EmptyString ->
  GoogleCalendarService.no_access_token creds = false.
Proof.
  intros -> Ht Hne. simpl. rewrite Ht. simpl. by apply String.eqb_neq.
Qed.

Lemma is_expired (creds : option tokens) (tk : tokens) (e now : Z) :
  creds = Some tk -> expiry_date tk = Some e -> e <> 0%Z -> (e <= now)%Z ->
  GoogleCalendarService.expired creds now = true.
Proof.
  intros -> He Hne Hle. simpl. rewrite He.
  apply andb_true_iff. split; [apply negb_true_iff; by apply Z.eqb_neq | by apply Z.leb_le].
Qed.

Lemma auth_required_names_bootstrap :
  includes "npm run oauth-setup" GoogleCalendarService.auth_required = true.
Proof. vm_compute. reflexivity. Qed.

Lemma auth_required_is_authentication (rt : Runtime) :
  GoogleCalendarService.is_authentication_error rt
    (JsError GoogleCalendarService.auth_required) = true.
Proof. vm_compute. reflexivity. Qed.

(** C6, amended. For each of the four calendar operations, on validated
    input. A call made while the stored credentials hold an access token
    and a non-zero expiry date that is not in the future issues exactly
    one token refresh call; if the refresh succeeds, the new credentials
    are stored and exactly one calendar API call follows it, and if it
    fails no calendar API call is issued. A call made with no access token
    issues no call at all, neither a refresh nor a calendar API call:
    updateEvent and deleteEvent then throw their own error wrapping the
    authentication-required message, which names the bootstrap step
    [npm run oauth-setup], whereas createEvent returns a mock event and
    listEvents returns mock events. *)
Theorem calendar_token_lifecycle
  (rt : Runtime) (w : World) (sv : Services) (op : operation) (sch : zschema)
  (args : jsval) (a : list (string * jsval)) (s : state) :
  is_calendar op = true ->
  declared_shape op = Some sch ->
  zparse rt sch (received op args) = inr a ->
  let r := perform rt w sv op args s in
  (forall tk token e,
     credentials s = Some tk ->
     access_token tk = Some token -> token <> EmptyString ->
     expiry_date tk = Some e -> e <> 0%Z -> (e <= date_now w (trace s))%Z ->
     match gc_refreshAccessToken w (trace s ++ [GcRefreshAccessToken]) with
     | inr fresh =>
         exists c, is_calendar_api c = true /\
                   trace r.2 = trace s ++ [GcRefreshAccessToken; c] /\
                   credentials r.2 = Some fresh
     | inl _ => trace r.2 = trace s ++ [GcRefreshAccessToken]
     end) /\
  (GoogleCalendarService.no_access_token (credentials s) = true ->
     r.2 = s /\
     includes "npm run oauth-setup" GoogleCalendarService.auth_required = true /\
     match op with
     | calendar_createEvent =>
         r.1 = Return (Content
                 (GoogleCalendarService.mock_event rt
                    (obj_get "title" a) (obj_get "description" a)
                    (str_of (obj_get "startTime" a)) (str_of (obj_get "endTime" a))
                    (strs_of (obj_get "attendees" a))))
     | calendar_listEvents =>
         r.1 = Return (Content (GoogleCalendarService.mock_events rt (date_now w (trace s))))
     | _ =>
         exists prefix,
           failure_prefix op = Some prefix /\
           r.1 = Throw (JsError (prefix +:+ GoogleCalendarService.auth_required))
     end).
Proof.
  intros Hc Hshape H r. subst r. split.
  - intros tk token e Hcr Htok Hne Hexp He0 Hle.
    pose proof (has_access_token _ _ _ Hcr Htok Hne) as Hacc.
    pose proof (is_expired _ _ _ _ Hcr Hexp He0 Hle) as Hex.
    destruct op; try discriminate; simpl in Hshape; injection Hshape as <-;
      simpl in H; enter H; rewrite try_ensure_eq, Hacc, Hex;
      destruct (gc_refreshAccessToken w (trace s ++ [GcRefreshAccessToken])) as [err|fresh];
      run_calls; unfold try_catch, throw, ret, bind, get_trace, trace, after_call; simpl;
      rewrite ?map_app; simpl; rewrite <- ?app_assoc; simpl;
      try reflexivity;
      eexists; (split; [|split; [reflexivity|reflexivity]]); reflexivity.
  - intros Hno. split; [|split; [apply auth_required_names_bootstrap|]];
      destruct op; try discriminate; simpl in Hshape; injection Hshape as <-;
      simpl in H; enter H; rewrite try_ensure_eq, Hno;
      rewrite ?auth_required_is_authentication; try reflexivity.
    all: eexists; split; reflexivity.
Qed.

Lemma calendar_token_lifecycle_witness :
  trace (perform rt0 w_up sample_services calendar_deleteEvent
           (JObj [("eventId", JStr "e1")]) s_stale).2
  = [GcRefreshAccessToken; GcEventsDelete "e1"] /\
  (perform rt0 w_up sample_services calendar_deleteEvent
     (JObj [("eventId", JStr "e1")]) s0).2 = s0.
Proof.
  destruct (calendar_token_lifecycle rt0 w_up sample_services calendar_deleteEvent
              GoogleCalendarService.deleteEvent_schema
              (JObj [("eventId", JStr "e1")]) [("eventId", JStr "e1")] s_stale
              eq_refl eq_refl eq_refl) as [Hexpired _].
  destruct (calendar_token_lifecycle rt0 w_up sample_services calendar_deleteEvent
              GoogleCalendarService.deleteEvent_schema
              (JObj [("eventId", JStr "e1")]) [("eventId", JStr "e1")] s0
              eq_refl eq_refl eq_refl) as [_ Hnone].
  split.
  - specialize (Hexpired stale_tokens "ya29.old" 1000%Z eq_refl eq_refl).
    destruct Hexpired as (c & _ & Ht & _); [discriminate | reflexivity | discriminate | |].
    + vm_compute. discriminate.
    + vm_compute. reflexivity.
  - apply Hnone. reflexivity.
Defined.

(** C6, as stated, fails: with no access token loaded, createEvent and
    listEvents do not fail; each returns a normal result holding mock
    text, in every world. *)
Lemma unauthenticated_call_returns_mock :
  GoogleCalendarService.no_access_token (credentials s0) = true /\
  perform rt0 w_up sample_services calendar_createEvent
    (JObj [("title", JStr "Deadline"); ("startTime", JStr "2025-03-01T00:00:00Z");
           ("endTime", JStr "2025-03-01T01:00:00Z")]) s0
  = (Return (Content (GoogleCalendarService.mock_event rt0 (JStr "Deadline") JUndefined
                        "2025-03-01T00:00:00Z" "2025-03-01T01:00:00Z" [])), s0) /\
  perform rt0 w_up sample_services calendar_listEvents JUndefined s0
  = (Return (Content (GoogleCalendarService.mock_events rt0 2000)), s0).
Proof. repeat split; vm_compute; reflexivity. Qed.

(** ** NotionService.updatePage and the blocks of a page *)

Lemma blocks_of_update (ws : gmap string page_state) (title status : option string)
  (page_id id : string) :
  blocks_of (alter (update_properties title status) page_id ws) id = blocks_of ws id.
Proof.
  unfold blocks_of. rewrite lookup_alter. case_decide as E; [subst|done].
  by destruct (ws !! id).
Qed.

Lemma blocks_of_append_other (ws : gmap string page_state) (paragraphs : list string)
  (page_id id : string) :
  id <> page_id ->
  blocks_of (alter (append_children paragraphs) page_id ws) id = blocks_of ws id.
Proof. intros Hne. unfold blocks_of. by rewrite lookup_alter_ne. Qed.

Lemma blocks_of_append_same (ws : gmap string page_state) (paragraphs : list string)
  (page_id : string) :
  blocks_of (alter (append_children paragraphs) page_id ws) page_id
  = match ws !! page_id with
    | Some p => ps_blocks p ++ map (fun c => Paragraph [c]) paragraphs
    | None => []
    end.
Proof. unfold blocks_of. rewrite lookup_alter_eq. by destruct (ws !! page_id). Qed.

Lemma update_nothing (ws : gmap string page_state) (page_id : string) :
  alter (update_properties None None) page_id ws = ws.
Proof. apply alter_id. by intros [? ? ?] _. Qed.

Lemma if_truthy_false (v : jsval) : truthy v = false -> NotionService.if_truthy v = None.
Proof. unfold NotionService.if_truthy. by intros ->. Qed.

(** C10. For every validated input of updatePage, whatever the vendor
    answers: the blocks every page had are still there, in place, after
    the call (none is deleted or replaced); the only change to the blocks
    of a page is one paragraph holding [content], appended after the
    existing blocks of the page [pageId], and it is made when the call
    returns with a non-empty [content] given; and when no title, status or
    content is given, the one request sent changes no property and no
    block, and the call returns a success result as soon as the vendor
    accepts that request. *)
Theorem updatePage_only_appends
  (rt : Runtime) (w : World) (args : jsval) (a : list (string * jsval))
  (s : state) (ws : gmap string page_state) :
  zparse rt NotionService.updatePage_schema args = inr a ->
  let r := NotionService.updatePage rt w args s in
  let pageId := str_of (obj_get "pageId" a) in
  let title := obj_get "title" a in
  let content := obj_get "content" a in
  let status := obj_get "status" a in
  exists entries,
    log r.2 = log s ++ entries /\
    let ws' := workspace_after ws entries in
    (forall id, blocks_of ws id `prefix_of` blocks_of ws' id) /\
    (forall id,
       blocks_of ws' id = blocks_of ws id \/
       (id = pageId /\ truthy content = true /\
        blocks_of ws' id = blocks_of ws id ++ [Paragraph [str_of content]])) /\
    (forall t, r.1 = Return (Content t) -> truthy content = true ->
       is_Some (ws !! pageId) ->
       blocks_of ws' pageId = blocks_of ws pageId ++ [Paragraph [str_of content]]) /\
    (truthy title = false -> truthy status = false -> truthy content = false ->
       let answer := nt_pages_update w (trace s ++ [NtPagesUpdate pageId None None]) in
       entries = [Entry (NtPagesUpdate pageId None None) (fault_of answer)] /\
       ws' = ws /\
       (fault_of answer = None -> exists t, r.1 = Return (Content t))).
Proof.
  intros H r pageId title content status.
  assert (forall ws' : gmap string page_state,
            (forall id,
               blocks_of ws' id = blocks_of ws id \/
               (id = pageId /\ truthy content = true /\
                blocks_of ws' id = blocks_of ws id ++ [Paragraph [str_of content]])) ->
            forall id, blocks_of ws id `prefix_of` blocks_of ws' id) as Hprefix.
  { intros ws' Hb id. destruct (Hb id) as [-> | (_ & _ & ->)]; [done|].
    by apply prefix_app_r. }
  subst r. unfold NotionService.updatePage.
  rewrite (parse_args_accepts _ _ _ _ _ _ _ H).
  fold pageId title content status.
  rewrite try_invoke_eq.
  destruct (nt_pages_update w _) as [e|u] eqn:Eu.
  - (* the page update is refused *)
    exists [Entry (NtPagesUpdate pageId (NotionService.if_truthy title)
                     (NotionService.if_truthy status)) (Some e)].
    split; [done|]. cbv zeta. unfold workspace_after, accepted; simpl.
    split; [done|]. split; [by left|]. split; [done|].
    intros Ht Hs Hc. rewrite (if_truthy_false _ Ht), (if_truthy_false _ Hs) in Eu |- *.
    rewrite Eu. by repeat split.
  - destruct (truthy content) eqn:Ec.
    + rewrite try_invoke_eq.
      destruct (nt_blocks_children_append w _) as [e|u'] eqn:Ea.
      * (* the page is updated, the append is refused *)
        eexists [Entry _ None; Entry _ (Some e)].
        split; [unfold throw, after_call; simpl; by rewrite <- app_assoc|].
        cbv zeta. unfold workspace_after, accepted; simpl.
        assert (forall id, blocks_of (alter (update_properties
                   (NotionService.if_truthy title) (NotionService.if_truthy status))
                   pageId ws) id = blocks_of ws id) as Hsame
          by (intros id; apply blocks_of_update).
        split; [intros id; by rewrite Hsame|].
        split; [intros id; left; apply Hsame|]. split; [done|]. done.
      * (* both requests are accepted *)
        eexists [Entry _ None; Entry _ None].
        split; [unfold try_catch, ret, after_call; simpl; by rewrite <- app_assoc|].
        cbv zeta. unfold workspace_after, accepted; simpl.
        assert (forall id,
                  blocks_of (alter (append_children [str_of content]) pageId
                    (alter (update_properties (NotionService.if_truthy title)
                              (NotionService.if_truthy status)) pageId ws)) id
                  = blocks_of ws id \/
                  (id = pageId /\ true = true /\
                   blocks_of (alter (append_children [str_of content]) pageId
                     (alter (update_properties (NotionService.if_truthy title)
                               (NotionService.if_truthy status)) pageId ws)) id
                   = blocks_of ws id ++ [Paragraph [str_of content]])) as Hb.
        { intros id. destruct (decide (id = pageId)) as [->|Hne].
          - rewrite blocks_of_append_same, lookup_alter_eq.
            unfold blocks_of. destruct (ws !! pageId) as [p|]; simpl.
            + right. done.
            + left. done.
          - left. rewrite blocks_of_append_other by done. apply blocks_of_update. }
        split; [by apply Hprefix|]. split; [done|]. split; [|done].
        intros t _ _ [p Hp].
        rewrite blocks_of_append_same, lookup_alter_eq. unfold blocks_of.
        by rewrite Hp.
    + (* no content: one request *)
      rewrite try_ret.
      eexists [Entry _ None].
      split; [done|]. cbv zeta. unfold workspace_after, accepted; simpl.
      split; [intros id; by rewrite blocks_of_update|].
      split; [intros id; left; apply blocks_of_update|]. split; [done|].
      intros Ht Hs _. rewrite (if_truthy_false _ Ht), (if_truthy_false _ Hs) in Eu |- *.
      rewrite Eu. simpl. split; [done|]. split; [apply update_nothing|].
      intros _. eexists. reflexivity.
Qed.

Lemma updatePage_only_appends_witness :
  exists entries,
    log (NotionService.updatePage rt0 w_up
           (JObj [("pageId", JStr "p-1"); ("content", JStr "more")]) s0).2
    = log s0 ++ entries /\
    blocks_of (workspace_after
                 {["p-1" := {| ps_title := Some "Plan"; ps_status := Some "Draft";
                               ps_blocks := [Paragraph ["intro"]] |}]} entries) "p-1"
    = [Paragraph ["intro"]; Paragraph ["more"]].
Proof.
  destruct (updatePage_only_appends rt0 w_up
              (JObj [("pageId", JStr "p-1"); ("content", JStr "more")])
              [("pageId", JStr "p-1"); ("title", JUndefined);
               ("content", JStr "more"); ("status", JUndefined)] s0
              {["p-1" := {| ps_title := Some "Plan"; ps_status := Some "Draft";
                            ps_blocks := [Paragraph ["intro"]] |}]} eq_refl)
    as (entries & Hlog & _ & _ & Happ & _).
  exists entries. split; [exact Hlog|].
  eapply Happ; [vm_compute; reflexivity | reflexivity |].
  rewrite lookup_singleton_eq. by eexists.
Defined.

(** ** Calendar operations in flight together *)

Section InFlightFacts.
Import InFlight.

(** Run alone, the two pieces of a task make up [ensureAuthenticated]. *)
Lemma pieces_make_ensureAuthenticated (w : World) (s : state) :
  let c := {| issued := trace s; creds := credentials s |} in
  let '(t, c') :=
    match ensure_begin w c with
    | (AwaitRefresh, c1) => ensure_resume w c1
    | done => done
    end in
  let '(r, s') := GoogleCalendarService.ensureAuthenticated w s in
  issued c' = trace s' /\ creds c' = credentials s' /\
  match r with
  | Return _ => t = Authenticated
  | Throw e => t = Rejected e
  end.
Proof.
  rewrite ensureAuthenticated_eq. unfold ensure_begin, ensure_resume. simpl.
  destruct (GoogleCalendarService.no_access_token (credentials s)); [done|].
  destruct (GoogleCalendarService.expired (credentials s) (date_now w (trace s))); [|done].
  simpl.
  destruct (gc_refreshAccessToken w (trace s ++ [GcRefreshAccessToken])); simpl.
  - by rewrite trace_after_call.
  - unfold trace. simpl. by rewrite map_app.
Qed.

Lemma pending_replicate (n : nat) : pending (replicate n Start) = n.
Proof. induction n as [|n IH]; simpl; [done|]. unfold pending in *. simpl. by rewrite IH. Qed.

Lemma pending_insert (ts : list task) (i : nat) (old new : task) :
  ts !! i = Some old ->
  pending (<[i := new]> ts) + (if started old then 0 else 1)
  = pending ts + (if started new then 0 else 1).
Proof.
  intros Hi. unfold pending.
  assert (i < length ts) as Hlt by (by eapply lookup_lt_Some).
  rewrite insert_take_drop by done.
  rewrite <- (take_drop_middle ts i old Hi) at 3.
  rewrite !List.filter_app, !length_app. simpl.
  destruct (started old), (started new); simpl; lia.
Qed.

Lemma refresh_calls_app (l1 l2 : list call) :
  refresh_calls (l1 ++ l2) = refresh_calls l1 + refresh_calls l2.
Proof. unfold refresh_calls. by rewrite List.filter_app, length_app. Qed.

(** One turn of the loop: a refresh is issued only by a task that starts. *)
Lemma step_refresh (w : World) (sys : system) (i : nat) :
  refresh_calls (issued (client sys)) <= refresh_calls (issued (client (step w sys i))) /\
  refresh_calls (issued (client (step w sys i))) + pending (tasks (step w sys i))
  <= refresh_calls (issued (client sys)) + pending (tasks sys).
Proof.
  unfold step. destruct (tasks sys !! i) as [[| | |e]|] eqn:Hi; try (simpl; lia).
  - unfold ensure_begin.
    destruct (GoogleCalendarService.no_access_token (creds (client sys))); simpl.
    + pose proof (pending_insert _ i Start (Rejected (JsError GoogleCalendarService.auth_required)) Hi).
      simpl in *. lia.
    + destruct (GoogleCalendarService.expired _ _); simpl.
      * pose proof (pending_insert _ i Start AwaitRefresh Hi).
        rewrite refresh_calls_app. simpl in *.
        change (refresh_calls [GcRefreshAccessToken]) with 1. lia.
      * pose proof (pending_insert _ i Start Authenticated Hi). simpl in *. lia.
  - unfold ensure_resume.
    destruct (gc_refreshAccessToken w (issued (client sys))); simpl.
    + pose proof (pending_insert _ i AwaitRefresh (Rejected (JsError GoogleCalendarService.refresh_failed)) Hi).
      simpl in *. lia.
    + pose proof (pending_insert _ i AwaitRefresh Authenticated Hi). simpl in *. lia.
Qed.

Lemma run_refresh (w : World) (schedule : list nat) (sys : system) :
  refresh_calls (issued (client sys)) <= refresh_calls (issued (client (run w schedule sys))) /\
  refresh_calls (issued (client (run w schedule sys))) + pending (tasks (run w schedule sys))
  <= refresh_calls (issued (client sys)) + pending (tasks sys).
Proof.
  revert sys. induction schedule as [|i schedule IH]; intros sys; simpl; [lia|].
  destruct (IH (step w sys i)) as [H1 H2].
  destruct (step_refresh w sys i) as [H3 H4].
  unfold run in *. lia.
Qed.

(** C5, as stated, fails: two calendar operations called together on a
    client whose token is expired, a refresh token being present, issue
    two refresh calls when both are started before the first refresh is
    answered; both end authenticated. *)
Lemma concurrent_operations_refresh_twice :
  GoogleCalendarService.no_access_token (creds stale_client) = false /\
  GoogleCalendarService.expired (creds stale_client) (date_now w_up []) = true /\
  issued (client (run w_up [0; 1; 0; 1] (together 2 stale_client)))
  = [GcRefreshAccessToken; GcRefreshAccessToken] /\
  tasks (run w_up [0; 1; 0; 1] (together 2 stale_client)) = [Authenticated; Authenticated] /\
  refresh_calls (issued (client (run w_up [0; 1; 0; 1] (together 2 stale_client)))) = 2.
Proof. repeat split; vm_compute; reflexivity. Qed.

(** C5, amended. The token refresh is not a critical section: every
    calendar operation that finds the token expired when it starts issues
    a refresh call of its own. However the operations called together are
    interleaved, the refresh calls issued are at most one per operation;
    and when two operations are both started before the refresh of the
    first is answered, the token being expired, exactly two refresh calls
    are issued. *)
Theorem refresh_is_per_operation
  (w : World) (c : shared) (n : nat) (schedule : list nat) :
  refresh_calls (issued (client (run w schedule (together n c))))
  <= refresh_calls (issued c) + n /\
  (GoogleCalendarService.no_access_token (creds c) = false ->
   (forall seen, GoogleCalendarService.expired (creds c) (date_now w seen) = true) ->
   forall rest,
     refresh_calls (issued (client (run w (0 :: 1 :: rest) (together 2 c))))
     = refresh_calls (issued c) + 2).
Proof.
  split.
  - destruct (run_refresh w schedule (together n c)) as [_ H].
    simpl in H. rewrite pending_replicate in H. lia.
  - intros Hno Hex rest.
    change (run w (0 :: 1 :: rest) (together 2 c))
      with (run w rest (step w (step w (together 2 c) 0) 1)).
    assert (step w (step w (together 2 c) 0) 1
            = {| client := {| issued := (issued c ++ [GcRefreshAccessToken])
                                          ++ [GcRefreshAccessToken];
                              creds := creds c |};
                 tasks := [AwaitRefresh; AwaitRefresh] |}) as ->.
    { unfold step, together, ensure_begin. simpl. rewrite Hno, Hex. simpl.
      by rewrite Hno, Hex. }
    match goal with |- context [run w rest ?sys] =>
      destruct (run_refresh w rest sys) as [H1 H2] end.
    simpl in H1, H2. rewrite !refresh_calls_app in H1, H2.
    change (refresh_calls [GcRefreshAccessToken]) with 1 in *.
    change (pending [AwaitRefresh; AwaitRefresh]) with 0 in *. lia.
Qed.

Lemma refresh_is_per_operation_witness :
  refresh_calls (issued (client (run w_up [0; 1; 1; 0] (together 2 stale_client))))
  = refresh_calls (issued stale_client) + 2.
Proof.
  apply (refresh_is_per_operation w_up stale_client 2 []).
  - reflexivity.
  - intros seen. reflexivity.
Defined.

End InFlightFacts.

(** ** The workflow orchestrator *)

Section WorkflowFacts.
Import ContentWorkflowService.

Lemma forallb_success (outs : list WorkflowStepOutcome) :
  forallb success outs = true <-> Forall (fun o => success o = true) outs.
Proof.
  induction outs as [|o outs IH]; simpl.
  - split; [constructor | done].
  - by rewrite Forall_cons, andb_true_iff, IH.
Qed.

Lemma overall_status_complete (outs : list WorkflowStepOutcome) :
  overall_status outs = complete <-> Forall (fun o => success o = true) outs.
Proof.
  unfold overall_status. rewrite <- forallb_success.
  destruct (forallb success outs); [done|].
  split; [|done]. by destruct (existsb success outs).
Qed.

Lemma existsb_success (outs : list WorkflowStepOutcome) :
  existsb success outs = true <-> Exists (fun o => success o = true) outs.
Proof.
  rewrite existsb_exists, Exists_exists. split; intros (o & Ho & Hs); exists o.
  - split; [by apply list_elem_of_In | done].
  - split; [by apply list_elem_of_In | done].
Qed.

Lemma forallb_success_false (outs : list WorkflowStepOutcome) :
  forallb success outs = false <-> Exists (fun o => success o = false) outs.
Proof.
  induction outs as [|o outs IH]; simpl.
  - split; [done | by intros ?%Exists_nil].
  - rewrite Exists_cons, andb_false_iff, IH. done.
Qed.

Lemma overall_status_failed (outs : list WorkflowStepOutcome) :
  outs <> [] ->
  overall_status outs = failed <-> Forall (fun o => success o = false) outs.
Proof.
  intros Hne. unfold overall_status.
  destruct (forallb success outs) eqn:Ha.
  - split; [done|]. intros Hf. destruct outs as [|o outs]; [done|].
    simpl in Ha. apply andb_true_iff in Ha as [Ho _].
    apply Forall_cons in Hf as [Hf _]. congruence.
  - destruct (existsb success outs) eqn:He.
    + split; [done|]. intros Hf. apply existsb_success in He.
      apply Exists_exists in He as (o & Ho & Hs).
      rewrite Forall_forall in Hf. specialize (Hf o Ho). congruence.
    + split; [|done]. intros _. apply Forall_forall. intros o Ho.
      destruct (success o) eqn:Hs; [|done].
      assert (existsb success outs = true) as Ht; [|congruence].
      apply existsb_success, Exists_exists. eauto.
Qed.

Lemma overall_status_partial (outs : list WorkflowStepOutcome) :
  overall_status outs = partial <->
  Exists (fun o => success o = true) outs /\ Exists (fun o => success o = false) outs.
Proof.
  unfold overall_status. rewrite <- existsb_success, <- forallb_success_false.
  destruct (forallb success outs); [split; [done | by intros [_ ?]]|].
  destruct (existsb success outs); [done|]. split; [done | by intros [? _]].
Qed.

Ltac check_answered :=
  let i := fresh "i" in let a := fresh "a" in let Hi := fresh "Hi" in
  intros i a Hi;
  repeat (destruct i as [|i]; simpl in Hi; [injection Hi as <-; simpl; congruence|]);
  done.

(** The shape of the result of a composite operation: the outcomes are
    those of the attempted steps, with at most one skipped step among
    them, which comes after a step that failed. *)
Lemma run_shape (wd : Wording) (c : Connectors) (op : composite) :
  let '(result, attempts) := run wd c op in
  attempts <> [] /\
  answered c attempts /\
  status result = overall_status (outcomes result) /\
  (outcomes result = map reported attempts \/
   exists pre post name reason,
     outcomes result = pre ++ skipped name reason :: post /\
     map reported attempts = pre ++ post /\
     Exists (fun o => success o = false) pre).
Proof.
  destruct op as [topic contentType deadline assignee | topic depth
                 | contentId repository branch]; simpl.
  - unfold createContentPlan, obind, attempt_step, oret. simpl.
    split; [done|]. split; [check_answered|]. split; [done|]. by left.
  - unfold researchTopic, obind, attempt_step, oret. simpl.
    split; [done|]. split; [check_answered|]. split; [done|]. by left.
  - unfold publishContent, obind, attempt_step at 1. simpl.
    destruct (c [GetPage contentId]) as [e|page] eqn:Ef; simpl.
    + split; [done|]. split; [check_answered|]. split; [done|]. by left.
    + set (branchName := default (derived_branch wd contentId) branch).
      destruct (c [GetPage contentId; CreateBranch branchName "main"])
        as [[m|m [|]|m]|made] eqn:Eb; simpl;
        unfold oret; simpl;
        (split; [done|]); (split; [check_answered|]); (split; [done|]);
        first [ by left | right ].
      all: eexists [_; _], [_], _, _; split; [reflexivity|]; split; [reflexivity|];
        apply Exists_cons; right; apply Exists_cons; by left.
Qed.

Lemma Forall_map_reported (P : WorkflowStepOutcome -> Prop) (attempts : list attempt) :
  Forall P (map reported attempts) <-> Forall (fun a => P (reported a)) attempts.
Proof. apply Forall_fmap. Qed.

Lemma Exists_map_reported (P : WorkflowStepOutcome -> Prop) (attempts : list attempt) :
  Exists P (map reported attempts) <-> Exists (fun a => P (reported a)) attempts.
Proof. apply Exists_fmap. Qed.



End WorkflowFacts.

(** * Further properties of the connectors *)

(** ** Endpoints *)

Ltac reject H :=
  cbv beta iota delta [perform
    GitHubService.createIssue GitHubService.createBranch GitHubService.createPullRequest
    GitHubService.listIssues GitHubService.getRepositoryInfo
    NotionService.createPage NotionService.searchPages NotionService.updatePage
    NotionService.getPage NotionService.listDatabasePages
    GoogleCalendarService.createEvent GoogleCalendarService.listEvents
    GoogleCalendarService.updateEvent GoogleCalendarService.deleteEvent
    WebSearchService.search WebSearchService.extractContent
    WebSearchService.researchTopic WebSearchService.validateContent];
  rewrite (parse_args_rejects _ _ _ _ _ _ _ H).

Ltac show_trace :=
  unfold try_catch, throw, ret, bind, get_trace, trace, after_call; simpl;
  rewrite ?map_app; simpl; rewrite <- ?app_assoc; simpl.

Ltac within_endpoints :=
  first [ exists []; split; [by rewrite app_nil_r|]; split; [simpl; lia | constructor]
        | eexists; split; [reflexivity|]; split;
          [ simpl; lia
          | repeat constructor; simpl; rewrite ?String.eqb_refl; reflexivity ] ].

Lemma searchQueries_length (topic depth : string) :
  length (WebSearchService.searchQueries topic depth) <= 5.
Proof. unfold WebSearchService.searchQueries. destruct (String.eqb depth _); simpl; lia. Qed.

Lemma perform_calls
  (rt : Runtime) (w : World) (sv : Services) (op : operation) (args : jsval) (s : state) :
  exists calls,
    trace (perform rt w sv op args s).2 = trace s ++ calls /\
    length calls <= max_calls op /\
    Forall (fun c => may_issue sv op c = true) calls.
Proof.
  destruct (declared_shape op) as [sch|] eqn:Hshape.
  - destruct (zparse rt sch (received op args)) as [issues|a] eqn:H.
    + destruct op; simpl in Hshape; try discriminate; injection Hshape as <-;
        simpl in H; reject H; simpl; within_endpoints.
    + destruct op; simpl in Hshape; try discriminate; injection Hshape as <-;
        simpl in H.
      1-13: enter H; run_calls; show_trace; within_endpoints.
      * simpl. rewrite (search_validated rt w _ args a s H).
        destruct (WebSearchService.enabled (webSearchService sv)); simpl;
          rewrite ?trace_after_call; within_endpoints.
      * enter H. destruct (WebSearchService.enabled (webSearchService sv)); simpl;
          run_calls; show_trace; within_endpoints.
      * simpl.
        destruct (researchTopic_validated rt w (webSearchService sv) args a s H)
          as (results & s' & Hrun & ->).
        destruct (research_loop rt w (webSearchService sv)
                    (WebSearchService.searchQueries (str_of (obj_get "topic" a))
                       (str_of (obj_get "depth" a))) s)
          as (results' & s'' & Hrun' & _ & Ht & _).
        simpl in Hrun. rewrite Hrun in Hrun'. injection Hrun' as _ <-.
        simpl. rewrite Ht. eexists. split; [reflexivity|].
        destruct (WebSearchService.enabled (webSearchService sv)).
        -- rewrite length_map. split; [apply searchQueries_length|].
           apply Forall_fmap, Forall_forall. done.
        -- split; [simpl; lia | constructor].
      * simpl. unfold WebSearchService.validateContent.
        rewrite (parse_args_accepts _ _ _ _ _ _ _ H). unfold try_catch, bind.
        rewrite (search_validated rt w (webSearchService sv) _
                   [("query", JStr (str_of (obj_get "topic" a)
                                    +:+ " authoritative sources experts"));
                    ("maxResults", JNum 3)] s) by reflexivity.
        destruct (WebSearchService.enabled (webSearchService sv)); simpl;
          rewrite ?trace_after_call; within_endpoints.
  - destruct op; simpl in Hshape; try discriminate.
    enter H. run_calls; show_trace; within_endpoints.
Qed.



(** ** What an operation can throw *)

Ltac classify :=
  unfold try_catch, throw, ret, bind, get_trace; simpl;
  intros Hthrow; try discriminate;
  right; do 2 eexists; (split; [reflexivity|]); by injection Hthrow as <-.

(** X2. An operation throws in two ways only: the validation error of its
    schema, with the state left as it was, or an Error whose message opens
    with the prefix of the operation. *)
Theorem thrown_errors_classified
  (rt : Runtime) (w : World) (sv : Services) (op : operation) (args : jsval)
  (s : state) (e : thrown) :
  (perform rt w sv op args s).1 = Throw e ->
  (exists sch issues,
     declared_shape op = Some sch /\
     zparse rt sch (received op args) = inl issues /\
     e = ZodError issues /\
     (perform rt w sv op args s).2 = s) \/
  (exists prefix m,
     failure_prefix op = Some prefix /\ e = JsError (prefix +:+ m)).
Proof.
  destruct (declared_shape op) as [sch|] eqn:Hshape.
  - destruct (zparse rt sch (received op args)) as [issues|a] eqn:H.
    + intros Hthrow. left. exists sch, issues. split; [done|]. split; [done|].
      revert Hthrow.
      destruct op; simpl in Hshape; try discriminate; injection Hshape as <-;
        simpl in H; reject H; simpl; intros [= <-]; done.
    + destruct op; simpl in Hshape; try discriminate; injection Hshape as <-;
        simpl in H; simpl failure_prefix.
      1-13: enter H; run_calls; classify.
      * simpl. destruct (search_returns rt w (webSearchService sv) args a s H)
          as (t & s' & ->). discriminate.
      * enter H. destruct (WebSearchService.enabled (webSearchService sv)); simpl;
          run_calls; classify.
      * simpl.
        destruct (researchTopic_validated rt w (webSearchService sv) args a s H)
          as (results & s' & _ & ->). discriminate.
      * simpl. unfold WebSearchService.validateContent.
        rewrite (parse_args_accepts _ _ _ _ _ _ _ H). unfold try_catch, bind.
        edestruct (search_returns rt w (webSearchService sv)) as (t & s' & ->);
          [reflexivity|]. discriminate.
  - destruct op; simpl in Hshape; try discriminate. simpl failure_prefix.
    enter H. run_calls; classify.
Qed.

Lemma thrown_errors_classified_witness :
  (exists sch issues,
     declared_shape calendar_deleteEvent = Some sch /\
     zparse rt0 sch (received calendar_deleteEvent (JObj [("eventId", JStr "e1")]))
       = inl issues /\
     JsError ("Failed to delete calendar event: " +:+ GoogleCalendarService.auth_required)
       = ZodError issues /\
     (perform rt0 w_up sample_services calendar_deleteEvent
        (JObj [("eventId", JStr "e1")]) s0).2 = s0) \/
  (exists prefix m,
     failure_prefix calendar_deleteEvent = Some prefix /\
     JsError ("Failed to delete calendar event: " +:+ GoogleCalendarService.auth_required)
       = JsError (prefix +:+ m)).
Proof.
  apply (thrown_errors_classified rt0 w_up sample_services calendar_deleteEvent
           (JObj [("eventId", JStr "e1")]) s0).
  vm_compute. reflexivity.
Defined.

(** ** What validation makes of an argument bag *)

Lemma zparse_fields_cong (rt : Runtime) (sch : zschema) (o o' : list (string * jsval)) :
  (forall g, g ∈ sch -> zparse_field rt g o = zparse_field rt g o') ->
  zparse_fields rt sch o = zparse_fields rt sch o'.
Proof.
  induction sch as [|f sch IH]; intros Hsame; simpl; [done|].
  rewrite IH by (intros g Hg; apply Hsame; by right).
  rewrite (Hsame f) by (by left). done.
Qed.

Lemma zparse_cong (rt : Runtime) (sch : zschema) (o o' : list (string * jsval)) :
  (forall g, g ∈ sch -> zparse_field rt g o = zparse_field rt g o') ->
  zparse rt sch (JObj o) = zparse rt sch (JObj o').
Proof. intros H. unfold zparse. by rewrite (zparse_fields_cong rt sch o o' H). Qed.

Lemma parse_args_cong (rt : Runtime) (sch : zschema) (x y : jsval)
  (B : Type) (k : list (string * jsval) -> M B) (s : state) :
  zparse rt sch x = zparse rt sch y ->
  bind (parse_args rt sch x) k s = bind (parse_args rt sch y) k s.
Proof. intros H. unfold bind, parse_args. by rewrite H. Qed.

(** An operation sees its argument bag through validation only. *)
Lemma perform_through_validation
  (rt : Runtime) (w : World) (sv : Services) (op : operation) (sch : zschema)
  (args args' : jsval) (s : state) :
  declared_shape op = Some sch ->
  zparse rt sch (received op args) = zparse rt sch (received op args') ->
  perform rt w sv op args s = perform rt w sv op args' s.
Proof.
  intros Hshape H.
  destruct op; simpl in Hshape; try discriminate; injection Hshape as <-;
    simpl in H;
    cbv beta iota delta [perform
      GitHubService.createIssue GitHubService.createBranch GitHubService.createPullRequest
      GitHubService.listIssues
      NotionService.createPage NotionService.searchPages NotionService.updatePage
      NotionService.getPage NotionService.listDatabasePages
      GoogleCalendarService.createEvent GoogleCalendarService.listEvents
      GoogleCalendarService.updateEvent GoogleCalendarService.deleteEvent
      WebSearchService.search WebSearchService.extractContent
      WebSearchService.researchTopic WebSearchService.validateContent];
    by apply parse_args_cong.
Qed.

(** X3. Two argument bags that agree on every property the schema of the
    operation names give the same result and the same calls: properties
    the schema does not name have no effect. *)
Theorem unknown_properties_ignored
  (rt : Runtime) (w : World) (sv : Services) (op : operation) (sch : zschema)
  (o o' : list (string * jsval)) (s : state) :
  declared_shape op = Some sch ->
  (forall f, f ∈ sch -> obj_get (fname f) o = obj_get (fname f) o') ->
  perform rt w sv op (JObj o) s = perform rt w sv op (JObj o') s.
Proof.
  intros Hshape Hsame. apply (perform_through_validation rt w sv op sch); [done|].
  assert (received op (JObj o) = JObj o) as -> by (by destruct op).
  assert (received op (JObj o') = JObj o') as -> by (by destruct op).
  apply zparse_cong. intros g Hg. unfold zparse_field. by rewrite (Hsame g Hg).
Qed.

Lemma unknown_properties_ignored_witness :
  perform rt0 w_up sample_services github_createIssue
    (JObj [("priority", JNum 1); ("title", JStr "Plan"); ("body", JStr "text")]) s0
  = perform rt0 w_up sample_services github_createIssue
      (JObj [("title", JStr "Plan"); ("body", JStr "text")]) s0.
Proof.
  apply (unknown_properties_ignored rt0 w_up sample_services github_createIssue
           GitHubService.createIssue_schema).
  - reflexivity.
  - intros f Hf. repeat (apply elem_of_cons in Hf as [->|Hf]; [reflexivity|]).
    by apply elem_of_nil in Hf.
Defined.

Lemma declared_shape_names (op : operation) (sch : zschema) :
  declared_shape op = Some sch -> NoDup (map fname sch).
Proof.
  intros H. destruct op; simpl in H; try discriminate; injection H as <-;
    apply (bool_decide_unpack _); vm_compute; reflexivity.
Qed.

Lemma declared_defaults_valid (rt : Runtime) (op : operation) (sch : zschema)
  (f : zfield) (d : jsval) :
  declared_shape op = Some sch -> f ∈ sch -> fmod f = ZDefault d ->
  zcheck rt (ftype f) d = None.
Proof.
  intros H Hf Hd. destruct op; simpl in H; try discriminate; injection H as <-;
    repeat (apply elem_of_cons in Hf as [->|Hf];
            [simpl in Hd; try discriminate; by injection Hd as <-|]);
    by apply elem_of_nil in Hf.
Qed.

Lemma same_name_same_field (sch : zschema) (f g : zfield) :
  NoDup (map fname sch) -> f ∈ sch -> g ∈ sch -> fname f = fname g -> f = g.
Proof.
  induction sch as [|h sch IH]; intros Hnd Hf Hg Hn; [by apply elem_of_nil in Hf|].
  simpl in Hnd. apply NoDup_cons in Hnd as [Hh Hnd].
  apply elem_of_cons in Hf as [->|Hf]; apply elem_of_cons in Hg as [->|Hg]; auto.
  - exfalso. apply Hh. rewrite Hn. by apply list_elem_of_fmap_2.
  - exfalso. apply Hh. rewrite <- Hn. by apply list_elem_of_fmap_2.
Qed.

(** X4. Passing the declared default of a property explicitly is the same
    as leaving the property out. *)
Theorem explicit_default_same_as_omitted
  (rt : Runtime) (w : World) (sv : Services) (op : operation) (sch : zschema)
  (f : zfield) (d : jsval) (o : list (string * jsval)) (s : state) :
  declared_shape op = Some sch ->
  f ∈ sch ->
  fmod f = ZDefault d ->
  obj_get (fname f) o = JUndefined ->
  perform rt w sv op (JObj ((fname f, d) :: o)) s = perform rt w sv op (JObj o) s.
Proof.
  intros Hshape Hf Hd Hun. apply (perform_through_validation rt w sv op sch); [done|].
  assert (forall x, received op (JObj x) = JObj x) as Hr by (by destruct op).
  rewrite !Hr. apply zparse_cong. intros g Hg. unfold zparse_field. simpl.
  destruct (String.eqb (fname g) (fname f)) eqn:E.
  - apply String.eqb_eq in E.
    assert (g = f) as -> by
      (eapply same_name_same_field; eauto using declared_shape_names).
    pose proof (declared_defaults_valid rt op sch f d Hshape Hf Hd) as Hv.
    rewrite Hd, Hun. destruct d; try done; by rewrite Hv.
  - done.
Qed.

Lemma explicit_default_same_as_omitted_witness :
  perform rt0 w_up sample_services github_createBranch
    (JObj [("baseBranch", JStr "main"); ("branchName", JStr "draft")]) s0
  = perform rt0 w_up sample_services github_createBranch
      (JObj [("branchName", JStr "draft")]) s0.
Proof.
  apply (explicit_default_same_as_omitted rt0 w_up sample_services github_createBranch
           GitHubService.createBranch_schema
           (Field "baseBranch" ZString (ZDefault (JStr "main")))).
  - reflexivity.
  - right. left.
  - reflexivity.
  - reflexivity.
Defined.

(** ** The number of results of a live search *)

Lemma length_slice0 {A} (e : Z) (l : list A) :
  (0 <= e)%Z -> length (slice0 e l) = Nat.min (Z.to_nat e) (length l).
Proof.
  intros He. unfold slice0.
  destruct (e <? 0)%Z eqn:E; [apply Z.ltb_lt in E; lia|].
  apply length_take.
Qed.

Lemma instant_answer_length (data : ddg_data) :
  length (WebSearchService.instant_answer data) <= 1.
Proof.
  unfold WebSearchService.instant_answer.
  destruct (dd_AbstractText data) as [abstract|]; [|simpl; lia].
  destruct (String.eqb abstract EmptyString); simpl; lia.
Qed.

Lemma related_topics_length (data : ddg_data) (maxResults : Z)
  (results : list WebSearchService.result) :
  (Z.of_nat (length results) <= maxResults)%Z ->
  (Z.of_nat (length (WebSearchService.related_topics data maxResults results))
   <= Z.min (maxResults - Z.of_nat (length results)) 3)%Z.
Proof.
  intros Hle. unfold WebSearchService.related_topics.
  destruct (dd_RelatedTopics data) as [[|t topics]|]; simpl length; try lia.
  rewrite length_map, length_slice0 by lia. lia.
Qed.



(** ** When listEvents answers with mock events *)

Lemma prefix_occurs (needle hay : string) :
  String.prefix needle hay = true <-> exists after, hay = needle +:+ after.
Proof.
  revert needle. induction hay as [|b hay IH]; intros [|a needle]; simpl.
  - split; [intros _; by exists EmptyString | done].
  - split; [done | intros [after H]; discriminate].
  - split; [intros _; by exists (String b hay) | done].
  - destruct (ascii_dec a b) as [->|Hne].
    + rewrite IH. split; intros [after H]; exists after.
      * by rewrite H.
      * by injection H.
    + split; [done|]. intros [after H]. injection H as -> _. done.
Qed.

Lemma includes_occurs (needle hay : string) :
  includes needle hay = true <-> occurs_in needle hay.
Proof.
  unfold occurs_in. induction hay as [|c hay IH].
  - change (includes needle EmptyString)
      with (String.prefix needle EmptyString || false).
    rewrite orb_false_r, prefix_occurs. split.
    + intros [after H]. by exists EmptyString, after.
    + intros (before & after & H). destruct before; [by exists after | discriminate].
  - change (includes needle (String c hay))
      with (String.prefix needle (String c hay) || includes needle hay).
    rewrite orb_true_iff, prefix_occurs, IH. split.
    + intros [[after H] | (before & after & H)].
      * by exists EmptyString, after.
      * exists (String c before), after. by rewrite H.
    + intros (before & after & H). destruct before as [|b before].
      * left. by exists after.
      * right. injection H as -> H. by exists before, after.
Qed.

(** X7. With a valid token, when the listing of events fails with an Error:
    listEvents returns the mock events if the message contains the word
    authentication, and otherwise throws its own Error around the message. *)
Theorem listEvents_mock_iff_authentication
  (rt : Runtime) (w : World) (args : jsval) (a : list (string * jsval))
  (s : state) (m : string) :
  zparse rt GoogleCalendarService.listEvents_schema (default_empty args) = inr a ->
  GoogleCalendarService.no_access_token (credentials s) = false ->
  GoogleCalendarService.expired (credentials s) (date_now w (trace s)) = false ->
  (forall seen, gc_events_list w seen = inl (JsError m)) ->
  (occurs_in "authentication" m ->
     exists now,
       (GoogleCalendarService.listEvents rt w args s).1
       = Return (Content (GoogleCalendarService.mock_events rt now))) /\
  (~ occurs_in "authentication" m ->
     (GoogleCalendarService.listEvents rt w args s).1
     = Throw (JsError ("Failed to list calendar events: " +:+ m))).
Proof.
  intros H Hacc Hexp Hfail.
  rewrite <- includes_occurs.
  unfold GoogleCalendarService.listEvents.
  rewrite (parse_args_accepts _ _ _ _ _ _ _ H).
  rewrite try_ensure_eq, Hacc, Hexp, try_get_trace, try_invoke_eq, Hfail.
  unfold GoogleCalendarService.is_authentication_error.
  change (error_message rt (JsError m)) with m.
  destruct (includes "authentication" m); split; intros Hm; try done.
  eexists. reflexivity.
Qed.

Lemma listEvents_mock_iff_authentication_witness :
  (GoogleCalendarService.listEvents rt0 w_down JUndefined (State [] (Some fresh_tokens))).1
  = Throw (JsError ("Failed to list calendar events: " +:+ "Network Error")).
Proof.
  eapply (listEvents_mock_iff_authentication rt0 w_down JUndefined
            _ (State [] (Some fresh_tokens)) "Network Error").
  - reflexivity.
  - reflexivity.
  - reflexivity.
  - reflexivity.
  - rewrite <- includes_occurs. vm_compute. discriminate.
Defined.

(** ** When ensureAuthenticated refreshes the token *)

Lemma no_access_token_false (creds : option tokens) :
  GoogleCalendarService.no_access_token creds = false <->
  exists tk token, creds = Some tk /\ access_token tk = Some token /\ token <> EmptyString.
Proof.
  split.
  - destruct creds as [tk|]; simpl; [|done].
    destruct (access_token tk) as [token|] eqn:E; simpl; [|done].
    intros H. exists tk, token. repeat split; try done. by apply String.eqb_neq.
  - intros (tk & token & -> & Ht & Hne). by eapply has_access_token.
Qed.

Lemma expired_true (creds : option tokens) (now : Z) :
  GoogleCalendarService.expired creds now = true <->
  exists tk e, creds = Some tk /\ expiry_date tk = Some e /\ e <> 0%Z /\ (e <= now)%Z.
Proof.
  split.
  - destruct creds as [tk|]; simpl; [|done].
    destruct (expiry_date tk) as [e|] eqn:E; [|done].
    intros [H1 H2]%andb_true_iff. exists tk, e. repeat split; try done.
    + apply negb_true_iff in H1. by apply Z.eqb_neq.
    + by apply Z.leb_le.
  - intros (tk & e & -> & He & Hne & Hle). by eapply is_expired.
Qed.

(** X8. ensureAuthenticated issues at most one call, the refresh of the
    access token, and issues it exactly when the client holds a non-empty
    access token whose expiry date is set and not after the clock. *)
Theorem refresh_exactly_when_expired (w : World) (s : state) :
  let r := GoogleCalendarService.ensureAuthenticated w s in
  (r.2 = s \/ trace r.2 = trace s ++ [GcRefreshAccessToken]) /\
  (trace r.2 = trace s ++ [GcRefreshAccessToken] <->
   exists tk token e,
     credentials s = Some tk /\
     access_token tk = Some token /\ token <> EmptyString /\
     expiry_date tk = Some e /\ e <> 0%Z /\ (e <= date_now w (trace s))%Z).
Proof.
  cbv zeta. rewrite ensureAuthenticated_eq.
  assert (trace s <> trace s ++ [GcRefreshAccessToken]) as Hgrow.
  { intros H. apply (f_equal length) in H. rewrite length_app in H. simpl in H. lia. }
  destruct (GoogleCalendarService.no_access_token (credentials s)) eqn:Hacc.
  - simpl. split; [by left|]. split; [done|].
    intros (tk & token & e & Hc & Ht & Hne & _).
    rewrite (has_access_token _ _ _ Hc Ht Hne) in Hacc. discriminate.
  - destruct (GoogleCalendarService.expired (credentials s) (date_now w (trace s)))
      eqn:Hexp.
    + assert (trace (GoogleCalendarService.ensureAuthenticated w s).2
              = trace s ++ [GcRefreshAccessToken]) as Ht.
      { rewrite ensureAuthenticated_eq, Hacc, Hexp.
        destruct (gc_refreshAccessToken w _); simpl.
        - apply trace_after_call.
        - unfold trace. simpl. by rewrite map_app. }
      rewrite ensureAuthenticated_eq, Hacc, Hexp in Ht.
      split; [by right|]. split; [|done]. intros _.
      apply no_access_token_false in Hacc as (tk & token & Hc & Htok & Hne).
      apply expired_true in Hexp as (tk' & e & Hc' & He & Hne' & Hle).
      rewrite Hc in Hc'. injection Hc' as <-. by exists tk, token, e.
    + simpl. split; [by left|]. split; [done|].
      intros (tk & token & e & Hc & _ & _ & He & Hne & Hle).
      rewrite (is_expired _ _ _ _ Hc He Hne Hle) in Hexp. discriminate.
Qed.

(** X9. After a successful refresh the new tokens are the credentials of
    the client: a second ensureAuthenticated straight after issues no
    further refresh, as long as the new tokens have not expired. *)
Theorem one_refresh_serves_the_next_call
  (w : World) (s : state) (fresh : tokens) (token : string) :
  GoogleCalendarService.no_access_token (credentials s) = false ->
  GoogleCalendarService.expired (credentials s) (date_now w (trace s)) = true ->
  gc_refreshAccessToken w (trace s ++ [GcRefreshAccessToken]) = inr fresh ->
  access_token fresh = Some token -> token <> EmptyString ->
  GoogleCalendarService.expired (Some fresh)
    (date_now w (trace s ++ [GcRefreshAccessToken])) = false ->
  exists s',
    bind (GoogleCalendarService.ensureAuthenticated w)
         (fun _ => GoogleCalendarService.ensureAuthenticated w) s = (Return tt, s') /\
    trace s' = trace s ++ [GcRefreshAccessToken] /\
    credentials s' = Some fresh.
Proof.
  intros Hacc Hexp Hfresh Htok Hne Hvalid.
  eexists. unfold bind. rewrite ensureAuthenticated_eq, Hacc, Hexp, Hfresh.
  rewrite ensureAuthenticated_eq. simpl credentials.
  rewrite (has_access_token (Some fresh) fresh token eq_refl Htok Hne).
  assert (trace (State (log s ++ [Entry GcRefreshAccessToken None]) (Some fresh))
          = trace s ++ [GcRefreshAccessToken]) as Ht
    by (unfold trace; simpl; by rewrite map_app).
  rewrite Ht, Hvalid. done.
Qed.

Lemma one_refresh_serves_the_next_call_witness :
  exists s',
    bind (GoogleCalendarService.ensureAuthenticated w_up)
         (fun _ => GoogleCalendarService.ensureAuthenticated w_up) s_stale
    = (Return tt, s') /\
    trace s' = trace s_stale ++ [GcRefreshAccessToken] /\
    credentials s' = Some fresh_tokens.
Proof.
  apply (one_refresh_serves_the_next_call w_up s_stale fresh_tokens "ya29.new");
    try reflexivity. discriminate.
Defined.

(** ** The token file and the calendar connector *)

Lemma calendar_without_token
  (rt : Runtime) (w : World) (sv : Services) (op : operation) (args : jsval) (s : state) :
  is_calendar op = true ->
  GoogleCalendarService.no_access_token (credentials s) = true ->
  (perform rt w sv op args s).2 = s.
Proof.
  intros Hc Hno.
  destruct op; try discriminate.
  - destruct (zparse rt GoogleCalendarService.createEvent_schema (default_empty args))
      as [issues|a] eqn:H; [reject H; done|].
    enter H. by rewrite try_ensure_eq, Hno.
  - destruct (zparse rt GoogleCalendarService.listEvents_schema (default_empty args))
      as [issues|a] eqn:H; [reject H; done|].
    enter H. rewrite try_ensure_eq, Hno.
    by rewrite auth_required_is_authentication.
  - destruct (zparse rt GoogleCalendarService.updateEvent_schema args)
      as [issues|a] eqn:H; [reject H; done|].
    enter H. by rewrite try_ensure_eq, Hno.
  - destruct (zparse rt GoogleCalendarService.deleteEvent_schema args)
      as [issues|a] eqn:H; [reject H; done|].
    enter H. by rewrite try_ensure_eq, Hno.
Qed.

(** X10. The constructor of the calendar connector takes the tokens of
    the primary file when it can be read, of the fallback file only when
    the primary one does not exist, and otherwise starts without tokens,
    in which case no calendar operation issues any call. *)
Theorem token_file_precedence
  (env : gmap string string) (primary fallback : GoogleCalendarService.token_file)
  (svc : GoogleCalendarService.t) (creds : option tokens) :
  GoogleCalendarService.constructor env primary fallback = inr (svc, creds) ->
  (forall doc, primary = GoogleCalendarService.Stored doc -> creds = doc) /\
  (primary = GoogleCalendarService.NoFile ->
   forall doc, fallback = GoogleCalendarService.Stored doc -> creds = doc) /\
  (primary = GoogleCalendarService.Unreadable \/
   (primary = GoogleCalendarService.NoFile /\
    forall doc, fallback <> GoogleCalendarService.Stored doc) ->
   creds = Some GoogleCalendarService.no_tokens /\
   forall rt w sv op args,
     is_calendar op = true ->
     (perform rt w sv op args (State [] creds)).2 = State [] creds).
Proof.
  unfold GoogleCalendarService.constructor.
  destruct (env_missing _ || env_missing _ || env_missing _); [discriminate|].
  intros [= _ <-]. split; [|split].
  - by intros doc ->.
  - by intros -> doc ->.
  - intros Hnone.
    assert (GoogleCalendarService.loadTokens
              match primary with
              | GoogleCalendarService.NoFile => fallback
              | _ => primary
              end (Some GoogleCalendarService.no_tokens)
            = Some GoogleCalendarService.no_tokens) as ->.
    { destruct Hnone as [-> | [-> Hfb]]; [done|].
      destruct fallback as [| |doc]; try done. by destruct (Hfb doc). }
    split; [done|]. intros rt w sv op args Hc.
    by apply calendar_without_token.
Qed.

Lemma token_file_precedence_witness :
  GoogleCalendarService.constructor calendar_env
    GoogleCalendarService.Unreadable (GoogleCalendarService.Stored (Some fresh_tokens))
  = inr (calendarService sample_services, Some GoogleCalendarService.no_tokens) /\
  (perform rt0 w_up sample_services calendar_deleteEvent (JObj [("eventId", JStr "e-1")])
     (State [] (Some GoogleCalendarService.no_tokens))).2
  = State [] (Some GoogleCalendarService.no_tokens).
Proof.
  assert (GoogleCalendarService.constructor calendar_env
            GoogleCalendarService.Unreadable
            (GoogleCalendarService.Stored (Some fresh_tokens))
          = inr (calendarService sample_services,
                 Some GoogleCalendarService.no_tokens)) as Hnew
    by (vm_compute; reflexivity).
  split; [exact Hnew|].
  destruct (token_file_precedence _ _ _ _ _ Hnew) as (_ & _ & H).
  destruct H as [_ H]; [by left|]. by apply H.
Defined.

(** ** createBranch: two dependent calls *)

(** X11. createBranch looks up the head of the base branch first and
    creates the new reference at the commit that lookup returned; when
    the lookup fails nothing is created, and either failure is thrown
    with the prefix of the operation. *)
Theorem createBranch_from_base_commit
  (rt : Runtime) (w : World) (this : GitHubService.t)
  (args : jsval) (a : list (string * jsval)) (s : state) :
  zparse rt GitHubService.createBranch_schema args = inr a ->
  let branchName := str_of (obj_get "branchName" a) in
  let baseBranch := str_of (obj_get "baseBranch" a) in
  let lookup := GhGitGetRef (GitHubService.owner this) (GitHubService.repo this)
                            ("heads/" +:+ baseBranch) in
  let r := GitHubService.createBranch rt w this args s in
  match gh_git_getRef w (trace s ++ [lookup]) with
  | inl e =>
      trace r.2 = trace s ++ [lookup] /\
      r.1 = Throw (JsError ("Failed to create GitHub branch: " +:+ error_message rt e))
  | inr sha =>
      let create := GhGitCreateRef (GitHubService.owner this) (GitHubService.repo this)
                                   ("refs/heads/" +:+ branchName) sha in
      trace r.2 = trace s ++ [lookup; create] /\
      match gh_git_createRef w (trace s ++ [lookup; create]) with
      | inl e =>
          r.1 = Throw (JsError ("Failed to create GitHub branch: " +:+ error_message rt e))
      | inr _ => exists t, r.1 = Return (Content t)
      end
  end.
Proof.
  intros H. cbv zeta. unfold GitHubService.createBranch.
  rewrite (parse_args_accepts _ _ _ _ _ _ _ H).
  rewrite try_invoke_eq.
  destruct (gh_git_getRef w _) as [e|sha] eqn:E1.
  - unfold throw. simpl. by rewrite trace_after_call.
  - rewrite try_invoke_eq, !trace_after_call, <- !app_assoc. simpl.
    destruct (gh_git_createRef w _) as [e|u] eqn:E2.
    + unfold throw. simpl. rewrite !trace_after_call, <- app_assoc. done.
    + unfold try_catch, ret. simpl. rewrite !trace_after_call, <- app_assoc.
      split; [done|]. eexists. reflexivity.
Qed.

Lemma createBranch_from_base_commit_witness :
  trace (GitHubService.createBranch rt0 w_up (githubService sample_services)
           (JObj [("branchName", JStr "draft")]) s0).2
  = [GhGitGetRef "o" "r" "heads/main"; GhGitCreateRef "o" "r" "refs/heads/draft" "abc123"].
Proof.
  pose proof (createBranch_from_base_commit rt0 w_up (githubService sample_services)
                (JObj [("branchName", JStr "draft")])
                [("branchName", JStr "draft"); ("baseBranch", JStr "main")] s0 eq_refl)
    as H.
  cbv zeta in H. simpl gh_git_getRef in H. apply H.
Defined.

(** ** createEvent: the event or a mock *)

Lemma created_text_is_not_mock (rt : Runtime) (data : gc_event)
  (title description : jsval) (startTime endTime : string) (attendees : list string) :
  event_created_text rt data
  <> GoogleCalendarService.mock_event rt title description startTime endTime attendees.
Proof.
  unfold event_created_text, GoogleCalendarService.mock_event.
  intros H. vm_compute in H. discriminate.
Qed.



(** ** searchPages lists the pages of the configured database only *)

(** X13. The result of searchPages depends on the pages of the configured
    database only: two workspaces whose search results agree on those
    pages give the same result. *)
Theorem searchPages_database_pages_only
  (rt : Runtime) (w w' : World) (this : NotionService.t)
  (args : jsval) (a : list (string * jsval)) (s : state)
  (results results' : list nt_page) :
  zparse rt NotionService.searchPages_schema args = inr a ->
  let seen := trace s ++ [NtSearch (str_of (obj_get "query" a))] in
  nt_search w seen = inr results ->
  nt_search w' seen = inr results' ->
  filter (fun page => NotionService.in_database this page = true) results
  = filter (fun page => NotionService.in_database this page = true) results' ->
  (NotionService.searchPages rt w this args s).1
  = (NotionService.searchPages rt w' this args s).1.
Proof.
  intros H seen Hw Hw' Hsame. unfold NotionService.searchPages.
  rewrite !(parse_args_accepts _ _ _ _ _ _ _ H). cbv beta zeta.
  rewrite !try_invoke_eq. fold seen. rewrite Hw, Hw'.
  unfold try_catch, ret. simpl. by rewrite Hsame.
Qed.

Lemma searchPages_database_pages_only_witness :
  (NotionService.searchPages rt0 w_up (notionService sample_services)
     (JObj [("query", JStr "plan")]) s0).1
  = (NotionService.searchPages rt0 w_shared (notionService sample_services)
       (JObj [("query", JStr "plan")]) s0).1.
Proof.
  eapply (searchPages_database_pages_only rt0 w_up w_shared
            (notionService sample_services) _ _ s0); reflexivity.
Defined.

(** ** What extractContent keeps of a page *)



(** ** The dispatcher of index.ts *)

Lemma rethrow_same {A} (m : M A) (s : state) :
  try_catch m (fun error => throw error) s = m s.
Proof. unfold try_catch, throw. by destruct (m s) as [[?|?] ?]. Qed.

(** X19. The names the catalog advertises are exactly the names the
    request handler routes. *)
Theorem advertised_tools_are_the_handled_ones (name : string) :
  name ∈ map Index.name Index.tools <-> is_Some (Index.route name).
Proof.
  let l := eval vm_compute in (map Index.name Index.tools) in
  change (map Index.name Index.tools) with l.
  split.
  - intros Hin.
    repeat (apply elem_of_cons in Hin as [->|Hin]; [by eexists|]).
    by apply elem_of_nil in Hin.
  - unfold Index.route.
    repeat (match goal with
            | |- context [String.eqb name ?x] =>
                destruct (String.eqb_spec name x) as [->|_]
            end;
            [intros _; repeat first [apply list_elem_of_here | apply list_elem_of_further]|]).
    intros [? ?]. done.
Qed.

(** X20. A call to a name the catalog does not list, such as the deletion
    of a calendar event, is rejected as an unknown tool before any
    connector is reached. *)
Theorem unadvertised_tool_rejected
  (rt : Runtime) (w : World) (sv : Services) (wf : Index.WorkflowService)
  (name : string) (args : jsval) (s : state) :
  name ∉ map Index.name Index.tools ->
  Index.callTool rt w sv wf name args s = (Throw (JsError ("Unknown tool: " +:+ name)), s).
Proof.
  intros Hout. unfold Index.callTool. rewrite rethrow_same.
  destruct (Index.route name) as [t|] eqn:Hroute; [|done].
  destruct Hout.
  let l := eval vm_compute in (map Index.name Index.tools) in
  change (map Index.name Index.tools) with l.
  revert Hroute. unfold Index.route.
  repeat (match goal with
            | |- context [String.eqb name ?x] =>
                destruct (String.eqb_spec name x) as [->|_]
            end;
          [intros _; repeat first [apply list_elem_of_here | apply list_elem_of_further]|]).
  done.
Qed.

Lemma unadvertised_tool_rejected_witness :
  Index.callTool rt0 w_up sample_services
    {| Index.createContentPlan := fun _ => ret (Content "plan");
       Index.publishContent := fun _ => ret (Content "published");
       Index.researchTopic := fun _ => ret (Content "research") |}
    "calendar_delete_event" (JObj [("eventId", JStr "e-1")]) s0
  = (Throw (JsError "Unknown tool: calendar_delete_event"), s0).
Proof.
  apply (unadvertised_tool_rejected rt0 w_up sample_services _ "calendar_delete_event").
  vm_compute. intros Hin.
  repeat (apply elem_of_cons in Hin as [Hin|Hin]; [discriminate Hin|]).
  by apply elem_of_nil in Hin.
Defined.

(** X21. A tool routed to a connector behaves as the method of the
    connector does, errors included, and whatever its arguments it never
    updates or deletes a calendar event. *)
Theorem connector_tools_leave_events_alone
  (rt : Runtime) (w : World) (sv : Services) (wf : Index.WorkflowService)
  (name : string) (op : operation) (args : jsval) (s : state) :
  Index.route name = Some (Index.Connector op) ->
  Index.callTool rt w sv wf name args s = perform rt w sv op args s /\
  exists calls,
    trace (Index.callTool rt w sv wf name args s).2 = trace s ++ calls /\
    Forall (fun c => alters_event c = false) calls.
Proof.
  intros Hroute. unfold Index.callTool. rewrite rethrow_same, Hroute.
  split; [done|].
  destruct (perform_calls rt w sv op args s) as (calls & Htrace & _ & Hmay).
  exists calls. split; [done|].
  eapply Forall_impl; [exact Hmay|]. intros c Hc. simpl in Hc.
  revert Hroute. unfold Index.route.
  repeat (destruct (String.eqb name _);
          [intros [= <-]; destruct c; simpl in Hc |- *; done|]).
  done.
Qed.

Lemma connector_tools_leave_events_alone_witness :
  exists calls,
    trace (Index.callTool rt0 w_up sample_services
      {| Index.createContentPlan := fun _ => ret (Content "plan");
         Index.publishContent := fun _ => ret (Content "published");
         Index.researchTopic := fun _ => ret (Content "research") |}
      "calendar_list_events" JUndefined s_stale).2 = trace s_stale ++ calls /\
    Forall (fun c => alters_event c = false) calls.
Proof.
  exact (proj2 (connector_tools_leave_events_alone rt0 w_up sample_services _
                  "calendar_list_events" calendar_listEvents JUndefined s_stale eq_refl)).
Defined.

(** ** The catalog and the shapes the methods validate *)

(** X22. For every tool routed to a connector, the catalog lists the
    properties of the schema the method validates, in the same order,
    with matching JSON types and the same defaults, and marks as required
    exactly the properties the schema requires. *)
Theorem catalog_agrees_with_validation
  (t : Index.Tool) (op : operation) (sch : zschema) :
  t ∈ Index.tools ->
  Index.route (Index.name t) = Some (Index.Connector op) ->
  declared_shape op = Some sch ->
  Forall2 (fun p f => Index.declares p f = true /\ Index.pdefault p = default_of f)
    (Index.properties t) sch /\
  Index.required t = map fname (filter (fun f => Index.is_required f = true) sch).
Proof.
  intros Hin Hroute Hshape. unfold Index.tools in Hin.
  repeat (apply elem_of_cons in Hin as [->|Hin];
          [vm_compute in Hroute;
           first [ discriminate Hroute
                 | injection Hroute as <-;
                   vm_compute in Hshape; injection Hshape as <-;
                   split; [repeat constructor | vm_compute; reflexivity] ]|]).
  by apply elem_of_nil in Hin.
Qed.

Lemma catalog_agrees_with_validation_witness :
  Index.required
    {| Index.name := "web_search";
       Index.properties := [ Index.Prop_ "query" "string" None;
                             Index.Prop_ "maxResults" "number" (Some (JNum 5)) ];
       Index.required := ["query"] |}
  = map fname (filter (fun f => Index.is_required f = true) WebSearchService.search_schema).
Proof.
  eapply proj2, (catalog_agrees_with_validation _ web_search); [|reflexivity..].
  unfold Index.tools. do 8 apply list_elem_of_further. apply list_elem_of_here.
Defined.

(** ** The web connector when it is switched off *)

Lemma research_loop_disabled (rt : Runtime) (w : World) (this : WebSearchService.t)
  (queries : list string) (s : state) :
  WebSearchService.enabled this = false ->
  for_each (WebSearchService.research_query rt w this) queries s
  = (Return (map (fun q => (q, WebSearchService.mock_search_text q)) queries), s).
Proof.
  intros Hoff. induction queries as [|q queries IH]; simpl; [done|].
  unfold bind at 1. rewrite research_query_eq, Hoff.
  unfold bind at 1. by rewrite IH.
Qed.

(** X16. When web search is not enabled, no operation of the web
    connector issues a call, and the results of search, extractContent
    and researchTopic do not depend on the outside world. *)
Theorem disabled_web_connector_stays_offline
  (rt : Runtime) (w w' : World) (sv : Services) (op : operation)
  (args : jsval) (s : state) :
  WebSearchService.enabled (webSearchService sv) = false ->
  is_web op = true ->
  (perform rt w sv op args s).2 = s /\
  (op <> web_validateContent -> perform rt w sv op args s = perform rt w' sv op args s).
Proof.
  intros Hoff Hweb. destruct op; try discriminate Hweb; clear Hweb; simpl perform.
  - destruct (zparse rt WebSearchService.search_schema args) as [issues|a] eqn:H.
    + unfold WebSearchService.search.
      by rewrite !(parse_args_rejects _ _ _ _ _ _ _ H).
    + by rewrite !(search_validated _ _ _ _ _ _ H), Hoff.
  - unfold WebSearchService.extractContent.
    destruct (zparse rt WebSearchService.extractContent_schema args) as [issues|a] eqn:H.
    + by rewrite !(parse_args_rejects _ _ _ _ _ _ _ H).
    + by rewrite !(parse_args_accepts _ _ _ _ _ _ _ H), Hoff.
  - unfold WebSearchService.researchTopic.
    destruct (zparse rt WebSearchService.researchTopic_schema args) as [issues|a] eqn:H.
    + by rewrite !(parse_args_rejects _ _ _ _ _ _ _ H).
    + rewrite !(parse_args_accepts _ _ _ _ _ _ _ H). cbv beta zeta.
      unfold try_catch, bind. by rewrite !research_loop_disabled.
  - split; [|done]. unfold WebSearchService.validateContent.
    destruct (zparse rt WebSearchService.validateContent_schema args) as [issues|a] eqn:H.
    + by rewrite !(parse_args_rejects _ _ _ _ _ _ _ H).
    + rewrite !(parse_args_accepts _ _ _ _ _ _ _ H). cbv beta zeta.
      unfold try_catch, bind.
      by rewrite (search_validated rt w _ _
                    [("query", JStr (str_of (obj_get "topic" a) +:+
                                     " authoritative sources experts"));
                     ("maxResults", JNum 3)]), Hoff.
Qed.

Lemma disabled_web_connector_stays_offline_witness :
  (perform rt0 w_up
     {| githubService := githubService sample_services;
        notionService := notionService sample_services;
        calendarService := calendarService sample_services;
        webSearchService := disabled |}
     web_researchTopic (JObj [("topic", JStr "rust")]) s0).2 = s0.
Proof.
  eapply proj1, (disabled_web_connector_stays_offline rt0 w_up w_down); reflexivity.
Defined.

(** ** validateContent *)

(** X17. validateContent never reads the content it is given: two valid
    argument bags with the same topic give the same result. *)
Theorem validateContent_ignores_content
  (rt : Runtime) (w : World) (this : WebSearchService.t) (draw : nat)
  (args args' : jsval) (a a' : list (string * jsval)) (s : state) :
  zparse rt WebSearchService.validateContent_schema args = inr a ->
  zparse rt WebSearchService.validateContent_schema args' = inr a' ->
  obj_get "topic" a = obj_get "topic" a' ->
  WebSearchService.validateContent rt w this draw args s
  = WebSearchService.validateContent rt w this draw args' s.
Proof.
  intros H H' Htopic. unfold WebSearchService.validateContent.
  rewrite (parse_args_accepts _ _ _ _ _ _ _ H), (parse_args_accepts _ _ _ _ _ _ _ H').
  cbv beta zeta. by rewrite Htopic.
Qed.

Lemma validateContent_ignores_content_witness :
  WebSearchService.validateContent rt0 w_up live 0
    (JObj [("content", JStr "The sky is green."); ("topic", JStr "sky")]) s0
  = WebSearchService.validateContent rt0 w_up live 0
      (JObj [("content", JStr "The sky is blue."); ("topic", JStr "sky")]) s0.
Proof.
  eapply validateContent_ignores_content; reflexivity.
Defined.

(** X18. On validated input, with random draws in their range,
    validateContent returns the validation text with an accuracy between
    70 and 99, a completeness between 80 and 99 and a relevance between
    85 and 99; it never reports a failure. *)
Theorem validation_scores_in_range
  (rt : Runtime) (w : World) (this : WebSearchService.t) (draw : nat)
  (args : jsval) (a : list (string * jsval)) (s : state) :
  zparse rt WebSearchService.validateContent_schema args = inr a ->
  (forall n k, (0 < n)%Z -> (0 <= random_below w n k < n)%Z) ->
  exists accuracy completeness relevance sources,
    (WebSearchService.validateContent rt w this draw args s).1
    = Return (Content (validation_text (str_of (obj_get "topic" a))
                         accuracy completeness relevance sources)) /\
    (70 <= accuracy <= 99)%Z /\ (80 <= completeness <= 99)%Z /\
    (85 <= relevance <= 99)%Z.
Proof.
  intros H Hrandom. unfold WebSearchService.validateContent.
  rewrite (parse_args_accepts _ _ _ _ _ _ _ H). cbv beta zeta.
  unfold try_catch, bind.
  rewrite (search_validated rt w _ _
             [("query", JStr (str_of (obj_get "topic" a) +:+
                              " authoritative sources experts"));
              ("maxResults", JNum 3)]) by done.
  pose proof (Hrandom 30%Z draw ltac:(lia)).
  pose proof (Hrandom 20%Z (draw + 1) ltac:(lia)).
  pose proof (Hrandom 15%Z (draw + 2) ltac:(lia)).
  destruct (WebSearchService.enabled this); simpl;
    (do 4 eexists; split; [reflexivity|lia]).
Qed.

Lemma validation_scores_in_range_witness :
  exists accuracy completeness relevance : Z,
    (70 <= accuracy <= 99)%Z /\ (80 <= completeness <= 99)%Z /\
    (85 <= relevance <= 99)%Z.
Proof.
  destruct (validation_scores_in_range rt0 w_up live 0
              (JObj [("content", JStr "The sky is blue."); ("topic", JStr "sky")])
              [("content", JStr "The sky is blue."); ("topic", JStr "sky")] s0 eq_refl)
    as (accuracy & completeness & relevance & _ & _ & Hranges).
  - intros n k Hn. simpl. lia.
  - exists accuracy, completeness, relevance. exact Hranges.
Defined.

(** ** An empty string counts as a property that is not given *)

Lemma zparse_field_other (rt : Runtime) (f : zfield) (k : string) (v : jsval)
  (o : list (string * jsval)) :
  String.eqb (fname f) k = false ->
  zparse_field rt f ((k, v) :: o) = zparse_field rt f o.
Proof. intros H. unfold zparse_field. simpl. by rewrite H. Qed.

Lemma zparse_field_blank (rt : Runtime) (k : string) (o : list (string * jsval)) :
  zparse_field rt (Field k ZString ZOptional) ((k, JStr EmptyString) :: o)
  = inr (JStr EmptyString).
Proof. unfold zparse_field. simpl. by rewrite String.eqb_refl. Qed.

Lemma zparse_field_absent (rt : Runtime) (k : string) (t : ztype)
  (o : list (string * jsval)) :
  obj_get k o = JUndefined ->
  zparse_field rt (Field k t ZOptional) o = inr JUndefined.
Proof. intros H. unfold zparse_field. simpl. by rewrite H. Qed.

Ltac blank Hk :=
  cbv beta iota delta [perform
    GitHubService.listIssues NotionService.searchPages NotionService.updatePage
    NotionService.listDatabasePages GoogleCalendarService.createEvent
    GoogleCalendarService.listEvents GoogleCalendarService.updateEvent
    GitHubService.listIssues_schema NotionService.searchPages_schema
    NotionService.updatePage_schema NotionService.listDatabasePages_schema
    GoogleCalendarService.createEvent_schema GoogleCalendarService.listEvents_schema
    GoogleCalendarService.updateEvent_schema
    parse_args bind zparse default_empty];
  cbn [zparse_fields fname];
  rewrite ?zparse_field_blank, ?(zparse_field_absent _ _ _ _ Hk);
  rewrite ?zparse_field_other by reflexivity;
  repeat match goal with
         | |- context [zparse_field ?rt ?f ?o] => destruct (zparse_field rt f o)
         end;
  reflexivity.

(** X5. For the optional strings that an operation reads through a truth
    test, the empty string is the same as no value: an update cannot
    blank a title, and an empty status filters nothing. *)
Theorem empty_string_same_as_omitted
  (rt : Runtime) (w : World) (sv : Services) (op : operation) (k : string)
  (o : list (string * jsval)) (s : state) :
  k ∈ read_by_truthiness op ->
  obj_get k o = JUndefined ->
  perform rt w sv op (JObj ((k, JStr EmptyString) :: o)) s
  = perform rt w sv op (JObj o) s.
Proof.
  intros Hin Hk.
  destruct op; simpl in Hin;
    repeat (apply elem_of_cons in Hin as [->|Hin]);
    try (by apply elem_of_nil in Hin).
  all: blank Hk.
Qed.

Lemma empty_string_same_as_omitted_witness :
  perform rt0 w_up sample_services notion_updatePage
    (JObj [("title", JStr EmptyString); ("pageId", JStr "p-1")]) s0
  = perform rt0 w_up sample_services notion_updatePage (JObj [("pageId", JStr "p-1")]) s0.
Proof.
  apply (empty_string_same_as_omitted rt0 w_up sample_services notion_updatePage "title").
  - apply list_elem_of_here.
  - reflexivity.
Defined.

(** X14. searchPages never reads its filter: two valid argument bags with
    the same query give the same result and the same call. *)
Theorem searchPages_ignores_filter
  (rt : Runtime) (w : World) (this : NotionService.t)
  (args args' : jsval) (a a' : list (string * jsval)) (s : state) :
  zparse rt NotionService.searchPages_schema args = inr a ->
  zparse rt NotionService.searchPages_schema args' = inr a' ->
  obj_get "query" a = obj_get "query" a' ->
  NotionService.searchPages rt w this args s = NotionService.searchPages rt w this args' s.
Proof.
  intros H H' Hquery. unfold NotionService.searchPages.
  rewrite (parse_args_accepts _ _ _ _ _ _ _ H), (parse_args_accepts _ _ _ _ _ _ _ H').
  cbv beta zeta. by rewrite Hquery.
Qed.

Lemma searchPages_ignores_filter_witness :
  NotionService.searchPages rt0 w_up (notionService sample_services)
    (JObj [("query", JStr "plan"); ("filter", JStr "Published")]) s0
  = NotionService.searchPages rt0 w_up (notionService sample_services)
      (JObj [("query", JStr "plan")]) s0.
Proof.
  eapply searchPages_ignores_filter; reflexivity.
Defined.
